(** * get_portraits.py: a shallow embedding and its verified properties

    The program downloads the Wikipedia portraits of the members of the
    U.S. Congress.  This file embeds [src/get_portraits.py] function by
    function and proves (or refutes) the properties stated about it.

    Conventions of the embedding.
    - A Python [str] is a Rocq [string]; a character [ascii] stands for
      the code point of the same number (U+0000 .. U+00FF).
    - A Python exception is a value of [exn]; a computation that may raise
      returns [result].
    - The libraries the program calls ([re], [lxml], [mwparserfromhell],
      [requests]) are not part of the repository: [re] and the XPath
      fragment in use are embedded below, the parsers and the network are
      fields of the environment [Env].
    - What the operating system may refuse is a field of [Env] as well:
      the opening of a file for writing, a write to the standard output.
    - A function that queries the API is its query followed by its body
      on the parsed answer; the body has a definition of its own
      ([article_of_response], [image_url_of_response],
      [image_name_of_templates], [members_of_section]). *)

From Stdlib Require Import Ascii String List Bool Arith Lia DecimalString.
From stdpp Require Import gmap strings list sorting.

Local Open Scope list_scope.

(** ** Python [str] primitives *)

Module PyStr.

Definition code (c : ascii) : nat := nat_of_ascii c.

(** [str.isspace] on one character, for the code points below 256. *)
Definition isspace (c : ascii) : bool :=
  let n := code c in
  ((9 <=? n) && (n <=? 13)) || ((28 <=? n) && (n <=? 32))
  || (n =? 133) || (n =? 160).

(** [str.lower] on one character, for the code points below 256. *)
Definition lower_char (c : ascii) : ascii :=
  let n := code c in
  if ((65 <=? n) && (n <=? 90))
     || ((192 <=? n) && (n <=? 222) && negb (n =? 215))
  then ascii_of_nat (n + 32) else c.

Fixpoint lower (s : string) : string :=
  match s with
  | EmptyString => EmptyString
  | String c s' => String (lower_char c) (lower s')
  end.

(** [s.lstrip(chars)], with [chars] given as a predicate. *)
Fixpoint lstrip_by (p : ascii -> bool) (s : string) : string :=
  match s with
  | EmptyString => EmptyString
  | String c s' => if p c then lstrip_by p s' else s
  end.

Fixpoint rstrip_by (p : ascii -> bool) (s : string) : string :=
  match s with
  | EmptyString => EmptyString
  | String c s' =>
      match rstrip_by p s' with
      | EmptyString => if p c then EmptyString else String c EmptyString
      | r => String c r
      end
  end.

(** [s.strip()] *)
Definition strip (s : string) : string :=
  rstrip_by isspace (lstrip_by isspace s).

(** [s.lstrip('|')] *)
Definition lstrip_pipe (s : string) : string :=
  lstrip_by (Ascii.eqb "|"%char) s.

(** Truth value of a [str] or [None]: [None] and [''] are false. *)
Definition truthy (v : option string) : bool :=
  match v with
  | None => false
  | Some EmptyString => false
  | Some _ => true
  end.

(** [sep.join(l)] *)
Definition join (sep : string) (l : list string) : string :=
  String.concat sep l.

(** [s1 in l] for a tuple of strings. *)
Definition mem (s : string) (l : list string) : bool :=
  existsb (String.eqb s) l.

(** [sorted(l)] on a list of strings: the order of the code points. *)
Fixpoint insert_sorted (x : string) (l : list string) : list string :=
  match l with
  | [] => [x]
  | y :: l' => if String.ltb x y then x :: l else y :: insert_sorted x l'
  end.

Definition sorted (l : list string) : list string :=
  foldr insert_sorted [] l.

(** Every character of [s] satisfies [p]. *)
Fixpoint all_chars (p : ascii -> bool) (s : string) : bool :=
  match s with
  | EmptyString => true
  | String c s' => p c && all_chars p s'
  end.

(** No character of [s] is one of [chars]. *)
Definition free_of (chars : list ascii) (s : string) : bool :=
  all_chars (fun c => negb (existsb (Ascii.eqb c) chars)) s.

End PyStr.

(** ** The fragment of Python's [re] that [RE_SORTNAME] uses

    A backtracking matcher in continuation-passing style: alternatives are
    tried in the priority order of [re] (a lazy star tries the shorter
    match first, a greedy option tries the group first), and the first
    success is the match. *)

Module Re.

Inductive regex : Type :=
| Lit (s : string)            (* a literal (escaped) string *)
| LazyDotStar                 (* .*?  where . is any character but newline *)
| Cat (r1 r2 : regex)         (* r1 r2 *)
| Group (i : nat) (r : regex) (* the i-th capturing group, from 0 *)
| Opt (r : regex).            (* r?  (greedy) *)

(** The text captured by each group, [None] when it took no part. *)
Definition captures := list (option string).

Definition newline : ascii := "010"%char.

Fixpoint strip_prefix (p s : string) : option string :=
  match p with
  | EmptyString => Some s
  | String c p' =>
      match s with
      | EmptyString => None
      | String d s' => if Ascii.eqb c d then strip_prefix p' s' else None
      end
  end.

(** The part of [s] in front of its suffix [s']. *)
Definition consumed (s s' : string) : string :=
  String.substring 0 (String.length s - String.length s') s.

Fixpoint lazy_dot_star {R : Type} (k : string -> option R) (s : string)
  : option R :=
  match k s with
  | Some x => Some x
  | None =>
      match s with
      | EmptyString => None
      | String c s' =>
          if Ascii.eqb c newline then None else lazy_dot_star k s'
      end
  end.

Fixpoint exec {R : Type} (r : regex) (s : string) (caps : captures)
    (k : string -> captures -> option R) : option R :=
  match r with
  | Lit p =>
      match strip_prefix p s with
      | Some s' => k s' caps
      | None => None
      end
  | LazyDotStar => lazy_dot_star (fun s' => k s' caps) s
  | Cat r1 r2 => exec r1 s caps (fun s' caps' => exec r2 s' caps' k)
  | Group i r =>
      exec r s caps
        (fun s' caps' => k s' (<[i := Some (consumed s s')]> caps'))
  | Opt r =>
      match exec r s caps k with
      | Some x => Some x
      | None => k s caps
      end
  end.

(** [pattern.match] anchored at the start of [s]: the captures and the
    text after the match. *)
Definition match_at (r : regex) (ngroups : nat) (s : string)
  : option (captures * string) :=
  exec r s (replicate ngroups None) (fun s' caps => Some (caps, s')).

(** What [findall] reports for a group: [''] when it took no part. *)
Definition group_text (g : option string) : string :=
  match g with
  | Some t => t
  | None => EmptyString
  end.

(** [pattern.findall(s)] for a pattern with several groups: the matches
    that do not overlap, scanned from the left, each as the tuple of its
    groups.  [skip] counts the characters still covered by the previous
    match. *)
Fixpoint findall_from (r : regex) (ngroups : nat) (skip : nat) (s : string)
  : list (list string) :=
  match skip with
  | S skip' =>
      match s with
      | EmptyString => []
      | String _ s' => findall_from r ngroups skip' s'
      end
  | O =>
      match match_at r ngroups s with
      | Some (caps, rest) =>
          (group_text <$> caps)
            :: match s with
               | EmptyString => []
               | String _ s' =>
                   findall_from r ngroups
                     (String.length s - String.length rest - 1) s'
               end
      | None =>
          match s with
          | EmptyString => []
          | String _ s' => findall_from r ngroups 0 s'
          end
      end
  end.

Definition findall (r : regex) (ngroups : nat) (s : string)
  : list (list string) :=
  findall_from r ngroups 0 s.

End Re.

(** [RE_SORTNAME]:
    [\{\{sortname\|(?P<firstname>.*?)\|(?P<lastname>.*?)(?P<articlename>\|.*?)?\}\}] *)
Definition RE_SORTNAME : Re.regex :=
  Re.Cat (Re.Lit "{{sortname|")
 (Re.Cat (Re.Group 0 Re.LazyDotStar)
 (Re.Cat (Re.Lit "|")
 (Re.Cat (Re.Group 1 Re.LazyDotStar)
 (Re.Cat (Re.Opt (Re.Group 2 (Re.Cat (Re.Lit "|") Re.LazyDotStar)))
         (Re.Lit "}}"))))).

Definition RE_SORTNAME_groups : nat := 3.


(** ** Exceptions *)

Inductive exn : Type :=
| AssertionError            (* a failed [assert] *)
| IndexError                (* [l[-1]] on an empty list *)
| ValueError (msg : string) (* [Template.get] on a missing parameter *)
| HTTPError (status : nat)  (* [Response.raise_for_status] *)
| ExternalError (name : string).
    (* raised inside a library or by the system: a connection error, an
       XML syntax error, an XPath error, an OS error, an interrupt *)

Inductive result (A : Type) : Type :=
| Ok (a : A)
| Raise (e : exn).
Arguments Ok {A} a.
Arguments Raise {A} e.

Definition raises {A : Type} (r : result A) : bool :=
  match r with
  | Ok _ => false
  | Raise _ => true
  end.

Definition rbind {A B : Type} (r : result A) (k : A -> result B) : result B :=
  match r with
  | Ok a => k a
  | Raise e => Raise e
  end.

Notation "'let/r' x ':=' r 'in' k" := (rbind r (fun x => k))
  (at level 10, x pattern, r at level 100, k at level 200).

(** [assert cond] *)
Definition check (cond : bool) : result unit :=
  if cond then Ok tt else Raise AssertionError.

(** ** The [lxml] element tree and the XPath expressions in use *)

Module Xml.

#[warnings="-register-all"]
Inductive element : Type :=
| Element (tag : string) (attrib : list (string * string))
          (text : option string) (children : list element).

Definition tag (e : element) : string :=
  match e with Element t _ _ _ => t end.
Definition attrib (e : element) : list (string * string) :=
  match e with Element _ a _ _ => a end.
Definition text (e : element) : option string :=
  match e with Element _ _ x _ => x end.
Definition children (e : element) : list element :=
  match e with Element _ _ _ c => c end.

(** [e.get(key)]: the attribute's value, [None] when it is absent. *)
Definition get (e : element) (key : string) : option string :=
  snd <$> find (fun kv => String.eqb (fst kv) key) (attrib e).

(** The elements of the tree in document order, each with the tag of its
    parent ([None] for the root element). *)
Fixpoint iter_from (parent : option string) (e : element)
  : list (option string * element) :=
  match e with
  | Element t _ _ cs => (parent, e) :: flat_map (iter_from (Some t)) cs
  end.

Definition iter (root : element) : list element :=
  snd <$> iter_from None root.

(** The elements strictly below [e], in document order. *)
Definition descendants (e : element) : list element :=
  flat_map iter (children e).

(** [//name]: every element called [name] of the document. *)
Definition xpath_all (name : string) (root : element) : list element :=
  filter (fun e => tag e = name) (iter root).

(** [.//name]: the elements called [name] below [e]. *)
Definition xpath_below (name : string) (e : element) : list element :=
  filter (fun e' => tag e' = name) (descendants e).

(** [//parent/name]: every element called [name] whose parent is called
    [parent]. *)
Definition xpath_child (parent name : string) (root : element)
  : list element :=
  snd <$> filter (fun pe => fst pe = Some parent ∧ tag (snd pe) = name)
                 (iter_from None root).

(** [//name[@key="value"]], for a [value] without a double quote. *)
Definition xpath_attr (name key value : string) (root : element)
  : list element :=
  filter (fun e => tag e = name ∧ get e key = Some value) (iter root).

End Xml.

(** ** The [mwparserfromhell] template nodes *)

Module Wikicode.

Record parameter : Type := MkParam { pname : string; pvalue : string }.

Record template : Type := MkTemplate { name : string; params : list parameter }.

(** [template.get(key)]: the last parameter whose stripped name is [key];
    [ValueError] when there is none. *)
Definition get (t : template) (key : string) : result parameter :=
  match find (fun p => String.eqb (PyStr.strip (pname p)) key)
             (rev (params t)) with
  | Some p => Ok p
  | None => Raise (ValueError key)
  end.

End Wikicode.

(** ** The environment: libraries, network and file system *)

(** What [requests.get(url, stream=True)] answers: the status, the chunks
    that the successive reads of [response.raw] deliver, and the error (if
    any) that the read after them raises.  A chunk may be empty; without
    an error the reads after the chunks deliver the empty chunk of the
    end of the body. *)
Record response : Type := Response {
  status_code : nat;
  raw_chunks : list string;
  raw_error : option exn
}.

Record Env : Type := {
  (** [lxml.etree.parse(io.StringIO(requests.get(url).text))]: the parsed
      answer to a query of the API, or what either call raises. *)
  api_get : string -> result Xml.element;
  (** [requests.get(url, stream=True)] for the image itself ([url] is
      [None] when the metadata has no [url] attribute). *)
  image_get : option string -> result response;
  (** [mwparserfromhell.parse(text).filter_templates()] *)
  filter_templates : option string -> list Wikicode.template;
  (** [mwparserfromhell.parse(text).get_sections(matches=name)], each
      section as its text ([str(section)]). *)
  get_sections : option string -> string -> list string;
  (** [tree.xpath(expr)] for an expression outside the fragment of [Xml]. *)
  xpath_other : string -> Xml.element -> result (list Xml.element);
  (** Does [open(name, 'wb')] succeed? *)
  open_ok : string -> bool;
  (** What [sys.stdout.write(text)] raises, if anything: for instance
      [UnicodeEncodeError] for a text that the encoding of the standard
      output cannot write.  As for the other fields, the answer is taken
      to depend on the argument alone. *)
  stdout_error : string -> option exn
}.

(** ** Effects

    The program reads nothing back from what it writes, so a computation
    is the list of the effects it performs, in order, with its outcome. *)

Inductive event : Type :=
| EvStdout (s : string)              (* text written to standard output *)
| EvTraceback (e : exn)              (* [traceback.print_exc()] *)
| EvRequest (url : option string)    (* an HTTP GET is issued *)
| EvOpen (name : string) (ok : bool) (* [open(name, 'wb')] *)
| EvWrite (name : string) (data : string)
| EvClose (name : string).

Definition M (A : Type) : Type := list event * result A.

Definition ret {A : Type} (a : A) : M A := ([], Ok a).

Definition raise {A : Type} (e : exn) : M A := ([], Raise e).

Definition bind {A B : Type} (m : M A) (k : A -> M B) : M B :=
  match m with
  | (t, Ok a) => let '(t', r) := k a in (t ++ t', r)
  | (t, Raise e) => (t, Raise e)
  end.

Notation "'let*' x ':=' m 'in' k" := (bind m (fun x => k))
  (at level 10, x pattern, m at level 100, k at level 200).

Notation "m ';;' k" := (bind m (fun _ => k))
  (at level 100, k at level 200, right associativity).

Definition emit (e : event) : M unit := ([e], Ok tt).

Definition lift {A : Type} (r : result A) : M A := ([], r).

Definition assert (cond : bool) : M unit := lift (check cond).

(** [try: body / except: handler / else: orelse] *)
Definition try_except {A B : Type} (body : M A) (handler : exn -> M B)
    (orelse : A -> M B) : M B :=
  match body with
  | (t, Ok a) => let '(t', r) := orelse a in (t ++ t', r)
  | (t, Raise e) => let '(t', r) := handler e in (t ++ t', r)
  end.

(** The file system: the content of each file by name. *)
Definition apply_event (fs : gmap string string) (e : event)
  : gmap string string :=
  match e with
  | EvOpen name true => <[name := EmptyString]> fs
  | EvWrite name data =>
      <[name := default EmptyString (fs !! name) +:+ data]> fs
  | _ => fs
  end.

Definition replay (fs : gmap string string) (t : list event)
  : gmap string string :=
  foldl apply_event fs t.

(** The exit status of the interpreter running a script. *)
Definition exit_status {A : Type} (r : result A) : nat :=
  match r with
  | Ok _ => 0
  | Raise _ => 1
  end.

(** ** [urllib.parse.quote] *)

Module Urllib.

Definition hex_digit (n : nat) : ascii :=
  ascii_of_nat (if n <? 10 then 48 + n else 55 + n).

(** [%XX] for one byte. *)
Definition percent (b : nat) : string :=
  String "%"%char
    (String (hex_digit (b / 16)) (String (hex_digit (b mod 16)) EmptyString)).

(** The UTF-8 bytes of a code point below 256. *)
Definition utf8 (c : ascii) : list nat :=
  let n := PyStr.code c in
  if n <? 128 then [n] else [192 + n / 64; 128 + n mod 64].

(** The characters [quote] leaves alone: letters, digits, [_.-~] and the
    default safe character [/]. *)
Definition is_safe (c : ascii) : bool :=
  let n := PyStr.code c in
  ((48 <=? n) && (n <=? 57)) || ((65 <=? n) && (n <=? 90))
  || ((97 <=? n) && (n <=? 122))
  || (n =? 95) || (n =? 46) || (n =? 45) || (n =? 126) || (n =? 47).

(** [urllib.parse.quote(s.encode('utf8'))] *)
Fixpoint quote (s : string) : string :=
  match s with
  | EmptyString => EmptyString
  | String c s' =>
      (if is_safe c then String c EmptyString
       else foldr (fun b acc => percent b +:+ acc) EmptyString (utf8 c))
      +:+ quote s'
  end.

End Urllib.

(** ** The program *)

Definition HOUSE_PAGE_NAME : string :=
  "Current members of the United States House of Representatives".
Definition HOUSE_SECTION_NAME : string := "Voting members by state".
Definition SENATE_PAGE_NAME : string := "List of current United States Senators".
Definition SENATE_SECTION_NAME : string := "Senators".

(** A tuple of [RE_SORTNAME.findall]: first name, last name, article name.
    The third component is typed so that Python's [None] can be written;
    [findall] itself only ever delivers [str] objects. *)
Definition member : Type := string * string * option string.

Definition as_member (groups : list string) : member :=
  (nth 0 groups EmptyString, nth 1 groups EmptyString,
   Some (nth 2 groups EmptyString)).

(** [str(x)] and ['{}'.format(x)] for a [str] or [None]. *)
Definition str_of (x : option string) : string :=
  match x with
  | Some s => s
  | None => "None"
  end.

Definition dquote : ascii := "034"%char.
Definition LF : string := String Re.newline EmptyString.

(** [str(n)] for a natural number. *)
Definition str_of_nat (n : nat) : string :=
  DecimalString.NilZero.string_of_uint (Nat.to_uint n).

(** The three values that the loop of [main] derives from a tuple. *)
Definition article_title (m : member) : string :=
  let '(fname, lname, article_name) := m in
  if PyStr.truthy article_name
  then PyStr.lstrip_pipe (str_of article_name)
  else fname +:+ " " +:+ lname.

Definition img_file_name (m : member) : string :=
  let '(fname, lname, _) := m in
  "us_congress_portrait_" +:+ PyStr.lower lname +:+ "_"
    +:+ PyStr.lower fname +:+ ".jpg".

Definition failure_name (m : member) : string :=
  let '(fname, lname, _) := m in lname +:+ ", " +:+ fname.

Definition INFOBOX_NAMES : list string :=
  ["infobox officeholder"; "infobox senator"; "infobox congressman";
   "infobox politician"; "infobox politician (general)"].

Definition is_infobox (t : Wikicode.template) : bool :=
  PyStr.mem (PyStr.lower (PyStr.strip (Wikicode.name t))) INFOBOX_NAMES.

(** [l[0]] and [l[-1]] *)
Definition first_item {A : Type} (l : list A) : result A :=
  match l with
  | x :: _ => Ok x
  | [] => Raise IndexError
  end.

Definition last_item {A : Type} (l : list A) : result A :=
  match last l with
  | Some x => Ok x
  | None => Raise IndexError
  end.

(** [response.raise_for_status()] *)
Definition raise_for_status (r : response) : M unit :=
  if (400 <=? status_code r) && (status_code r <? 600)
  then raise (HTTPError (status_code r)) else ret tt.

(** The loop of [shutil.copyfileobj]: read a chunk, stop when it is empty,
    write it, and again. *)
Fixpoint copy_chunks (name : string) (chunks : list string)
    (error : option exn) : M unit :=
  match chunks with
  | [] =>
      match error with
      | Some e => raise e
      | None => ret tt
      end
  | chunk :: rest =>
      if PyStr.truthy (Some chunk)
      then emit (EvWrite name chunk);; copy_chunks name rest error
      else ret tt
  end.

(** [shutil.copyfileobj(response.raw, img_file)] *)
Definition copyfileobj (r : response) (name : string) : M unit :=
  copy_chunks name (raw_chunks r) (raw_error r).

(** The URL that [wiki_query] requests: the keyword arguments, in the order
    of the dictionary, as the query string. *)
Definition api_url (kwargs : list (string * string)) : string :=
  let qs := PyStr.join "&" ((fun kv => fst kv +:+ "=" +:+ snd kv) <$> kwargs) in
  "http://en.wikipedia.org/w/api.php?" +:+ qs.

(** The [params] of [wiki_query_article]. *)
Definition article_params (title : string) : list (string * string) :=
  [("format", "xml"); ("action", "query"); ("prop", "revisions");
   ("rvprop", "timestamp|user|comment|content");
   ("titles", "API|" +:+ Urllib.quote title)].

(** The [params] of [wiki_query_image_url]. *)
Definition imageinfo_params (query_title : string) : list (string * string) :=
  [("format", "xml"); ("action", "query"); ("prop", "imageinfo");
   ("iiprop", "url"); ("titles", "API|" +:+ query_title)].

(** [RE_SORTNAME.findall(str(section))] *)
Definition members_of_section (section : string) : list member :=
  as_member <$> Re.findall RE_SORTNAME RE_SORTNAME_groups section.

(** The body of [wiki_query_article] after the query: the text of the last
    [rev] node of the answer. *)
Definition article_of_response (tree : Xml.element) : result (option string) :=
  let revs := Xml.xpath_all "rev" tree in
  let/r rev := last_item revs in
  Ok (Xml.text rev).

(** The body of [wiki_read_officeholder_image_name] after the parse. *)
Definition image_name_of_templates (templates : list Wikicode.template)
  : result string :=
  let infoboxen := List.filter is_infobox templates in
  let/r _ := check (length infoboxen =? 1) in
  let/r infobox := first_item infoboxen in
  let/r image := Wikicode.get infobox "image" in
  Ok (PyStr.strip (Wikicode.pvalue image)).

Section Program.

Context (env : Env).

(** [sys.stdout.write(s)] *)
Definition stdout_write (s : string) : M unit :=
  match stdout_error env s with
  | Some e => raise e
  | None => emit (EvStdout s)
  end.

(** [print(s)]: a [write] of the text, then a [write] of the line break. *)
Definition print (s : string) : M unit :=
  stdout_write s;;
  stdout_write LF.

(** [with open(name, 'wb') as f: body]: the file is closed on the way out,
    whatever the outcome of [body]. *)
Definition with_open_wb {A : Type} (name : string) (body : M A) : M A :=
  if open_ok env name
  then let '(t, r) := body in
       (EvOpen name true :: t ++ [EvClose name], r)
  else ([EvOpen name false], Raise (ExternalError "OSError")).

Definition wiki_query (kwargs : list (string * string)) : M Xml.element :=
  let url := api_url kwargs in
  emit (EvRequest (Some url));;
  lift (api_get env url).

Definition wiki_query_article (title : string) : M (option string) :=
  let* tree := wiki_query (article_params title) in
  lift (article_of_response tree).

Definition wiki_read_officeholder_image_name (page_text : option string)
  : result string :=
  image_name_of_templates (filter_templates env page_text).

(** [tree.xpath('//page[@title="{}"]'.format(title))]: inside the fragment
    of [Xml] when [title] holds no double quote. *)
Definition xpath_page_titled (title : string) (tree : Xml.element)
  : result (list Xml.element) :=
  if PyStr.free_of [dquote] title
  then Ok (Xml.xpath_attr "page" "title" title tree)
  else xpath_other env
         ("//page[@title=" +:+ String dquote title +:+ String dquote "]") tree.

(** The loop over the [normalized/n] nodes: the last node whose [from] is
    the query title decides. *)
Definition response_title_of (query_title : string)
    (all_normalized : list Xml.element) : option string :=
  foldl (fun response_title normalized =>
           if decide (Xml.get normalized "from" = Some query_title)
           then Xml.get normalized "to" else response_title)
        (Some query_title) all_normalized.

(** The body of [wiki_query_image_url] after the query: from the parsed
    answer [tree] to the URL. *)
Definition image_url_of_response (query_title : string) (tree : Xml.element)
  : result (option string) :=
  let response_title :=
    response_title_of query_title (Xml.xpath_child "normalized" "n" tree) in
  let/r pages := xpath_page_titled (str_of response_title) tree in
  let/r _ := check (length pages =? 1) in
  let/r page := first_item pages in
  (* [page.xpath('//ii')]: a path that starts with [//] is resolved from
     the root of the document, whatever element it is called on *)
  let ii := Xml.xpath_all "ii" tree in
  let/r _ := check (length ii =? 1) in
  let/r ii0 := first_item ii in
  Ok (Xml.get ii0 "url").

Definition wiki_query_image_url (file_name : string) : M (option string) :=
  let query_title := "File:" +:+ file_name in
  let* tree := wiki_query (imageinfo_params query_title) in
  lift (image_url_of_response query_title tree).

Definition download_congress_portrait (page_title : string) (img_file : string)
  : M unit :=
  let* page_text := wiki_query_article page_title in
  let* image_name := lift (wiki_read_officeholder_image_name page_text) in
  let* image_url := wiki_query_image_url image_name in
  emit (EvRequest image_url);;
  let* image_response := lift (image_get env image_url) in
  raise_for_status image_response;;
  copyfileobj image_response img_file.

Definition current_members (page_name section_name : string)
  : M (list member) :=
  let* page_text := wiki_query_article page_name in
  let page_sections := get_sections env page_text section_name in
  assert (length page_sections =? 1);;
  let* section := lift (first_item page_sections) in
  ret (members_of_section section).

(** The [try] statement of the loop of [main], for one member. *)
Definition member_pipeline (m : member) : M unit :=
  with_open_wb (img_file_name m)
    (download_congress_portrait (article_title m) (img_file_name m)).

(** One turn of the loop of [main]: the progress text is written before
    the [try] statement, the text of the outcome in its [except] and
    [else] clauses; what such a write raises leaves the turn. *)
Definition main_body (failures : list string) (m : member) : M (list string) :=
  stdout_write (failure_name m +:+ "...");;
  try_except (member_pipeline m)
    (fun e =>
       stdout_write (" FAILED." +:+ LF);;
       emit (EvTraceback e);;
       ret (failures ++ [failure_name m]))
    (fun _ =>
       stdout_write (" OK" +:+ LF);;
       ret failures).

(** [for ... in members: ...] *)
Fixpoint main_loop (failures : list string) (members : list member)
  : M (list string) :=
  match members with
  | [] => ret failures
  | m :: rest =>
      let* failures' := main_body failures m in
      main_loop failures' rest
  end.

Definition main : M unit :=
  let* senators := current_members SENATE_PAGE_NAME SENATE_SECTION_NAME in
  let* representatives := current_members HOUSE_PAGE_NAME HOUSE_SECTION_NAME in
  print ("loading images for " +:+ str_of_nat (length senators)
         +:+ " senators and " +:+ str_of_nat (length representatives)
         +:+ " representatives");;
  let* failures := main_loop [] (senators ++ representatives) in
  print ("failures:" +:+ LF +:+ PyStr.join LF (PyStr.sorted failures)).

End Program.

(** ** Roster text: the vocabulary of the statements on [RE_SORTNAME] *)

Definition OPENING : string := "{{sortname|".

(** A sortname citation with two or three positional arguments. *)
Record citation : Type := Citation {
  c_first : string;
  c_last : string;
  c_article : option string
}.

Definition article_suffix (c : citation) : string :=
  match c_article c with
  | Some a => "|" +:+ a
  | None => EmptyString
  end.

(** The markup of a citation. *)
Definition cite (c : citation) : string :=
  OPENING +:+ c_first c +:+ "|" +:+ c_last c +:+ article_suffix c +:+ "}}".

(** The arguments of a citation hold no separator of the markup: no [|]
    and no line break in the first name, neither these nor [}] in the last
    name, no [}] and no line break in the article name. *)
Definition wf_citation (c : citation) : bool :=
  PyStr.free_of ["|"; Re.newline]%char (c_first c)
  && PyStr.free_of ["|"; "}"; Re.newline]%char (c_last c)
  && match c_article c with
     | Some a => PyStr.free_of ["}"; Re.newline]%char a
     | None => true
     end.

(** The tuple that [findall] is expected to deliver for a citation. *)
Definition tuple_of (c : citation) : list string :=
  [c_first c; c_last c; article_suffix c].

(** No [|] before the end of the first line of [s]. *)
Fixpoint no_pipe_on_line (s : string) : bool :=
  match s with
  | EmptyString => true
  | String c s' =>
      if Ascii.eqb c Re.newline then true
      else if Ascii.eqb c "|"%char then false
      else no_pipe_on_line s'
  end.

(** Nothing that looks like a citation begins at the head of [s]: either
    the opening [{{sortname|] is not there, or no [|] follows it on its
    line (a citation without its second argument, at the end of a line). *)
Definition dead_start (s : string) : bool :=
  match Re.strip_prefix OPENING s with
  | Some s' => no_pipe_on_line s'
  | None => true
  end.

(** [dead_start] at every position of [sep], when [following] comes next. *)
Fixpoint inert (sep following : string) : bool :=
  match sep with
  | EmptyString => true
  | String _ sep' => dead_start (sep +:+ following) && inert sep' following
  end.

(** A section text: citations, each behind a separator, and a tail. *)
Fixpoint render (segs : list (string * citation)) (tail : string) : string :=
  match segs with
  | [] => tail
  | (sep, c) :: segs' => sep +:+ cite c +:+ render segs' tail
  end.

Fixpoint separators_inert (segs : list (string * citation)) (tail : string)
  : bool :=
  match segs with
  | [] => inert tail EmptyString
  | (sep, c) :: segs' =>
      inert sep (cite c +:+ render segs' tail) && separators_inert segs' tail
  end.

(** Does the text begin with a correctly formed citation: the opening, two
    or three arguments free of [|], [{], [}] and line breaks, the closing
    braces? *)
Definition skip_argument (s : string) : string :=
  PyStr.lstrip_by
    (fun c => negb (existsb (Ascii.eqb c) ["|"; "{"; "}"; Re.newline]%char)) s.

Definition closes (s : string) : bool :=
  bool_decide (is_Some (Re.strip_prefix "}}" s)).

Definition citation_at (s : string) : bool :=
  match Re.strip_prefix OPENING s with
  | None => false
  | Some s1 =>
      match Re.strip_prefix "|" (skip_argument s1) with
      | None => false
      | Some s2 =>
          let s3 := skip_argument s2 in
          closes s3
          || match Re.strip_prefix "|" s3 with
             | Some s4 => closes (skip_argument s4)
             | None => false
             end
      end
  end.

(** The number of correctly formed citations in a text. *)
Fixpoint count_citations (s : string) : nat :=
  (if citation_at s then 1 else 0)
  + match s with
    | EmptyString => 0
    | String _ s' => count_citations s'
    end.

(** ** Observations on a trace *)

(** The file that an [open] event names. *)
Definition opened (e : event) : option string :=
  match e with
  | EvOpen name _ => Some name
  | _ => None
  end.

Definition is_request (e : event) : bool :=
  match e with
  | EvRequest _ => true
  | _ => false
  end.

(** What a trace writes to the file [name], in order. *)
Fixpoint written (name : string) (t : list event) : string :=
  match t with
  | [] => EmptyString
  | EvWrite n data :: t' =>
      if decide (n = name) then data +:+ written name t' else written name t'
  | _ :: t' => written name t'
  end.

(** Does the [try] statement of the loop end in the [except] clause? *)
Definition pipeline_raises (env : Env) (m : member) : bool :=
  raises (snd (member_pipeline env m)).

(** Every effect of a computation satisfies [P]. *)
Definition trace_all (P : event -> Prop) {A : Type} (m : M A) : Prop :=
  Forall P (fst m).

(** The effects of a download: requests and writes. *)
Definition quiet (e : event) : Prop :=
  match e with
  | EvRequest _ | EvWrite _ _ => True
  | _ => False
  end.

(** ** Sample answers of the API and sample environments *)

Module Sample.

Import Xml.

Definition page (title : string) (children : list element) : element :=
  Element "page" [("title", title)] None children.

Definition revisions (content : string) : element :=
  Element "revisions" []
    None [Element "rev" [("contentformat", "text/x-wiki")] (Some content) []].

Definition imageinfo (url : string) : element :=
  Element "imageinfo" [] None [Element "ii" [("url", url)] None []].

Definition n (from to : string) : element :=
  Element "n" [("from", from); ("to", to)] None [].

(** [<api><query><normalized>..</normalized><pages>..</pages></query></api>] *)
Definition api (normalized pages : list element) : element :=
  Element "api" [] None
    [Element "query" [] None
       [Element "normalized" [] None normalized;
        Element "pages" [] None pages]].

(** The requested article does not exist; the sentinel [API] does. *)
Definition unresolved_title : string := "Jane Q. Nobody".

Definition unresolved_article : element :=
  api [] [page unresolved_title [];
          page "API" [revisions "An API is an interface between programs."]].

(** The image page holds no image information; another page does. *)
Definition stray_imageinfo : element :=
  api [] [page "File:Jane Doe.jpg" [];
          page "API" [imageinfo "http://upload.example.org/Other.jpg"]].




(** The normalized title holds double quotes: [File:Jane "JD" Doe.jpg]. *)
Definition quoted_title : string :=
  "File:Jane " +:+ String dquote ("JD" +:+ String dquote " Doe.jpg").

Definition normalized_quoted : element :=
  api [n "File:jane_Doe.jpg" quoted_title]
      [page "API" [];
       page quoted_title
         [imageinfo "http://upload.example.org/Jane_Doe.jpg"]].

(** An infobox without a portrait. *)
Definition infobox_without_image : Wikicode.template :=
  Wikicode.MkTemplate "Infobox officeholder
"
    [Wikicode.MkParam " name " " Jane Doe
"].

Definition infobox_with_image : Wikicode.template :=
  Wikicode.MkTemplate " Infobox Officeholder
"
    [Wikicode.MkParam " name " " Jane Doe
";
     Wikicode.MkParam " image " " Jane_Doe.jpg
"].

(** A run: two senators and one representative.  The portrait of Jane Doe
    answers 404, that of John Roe arrives in two chunks, the article of
    Ann Lee has no infobox. *)
Definition senate_text : string :=
  "==Senators==
{{sortname|Jane|Doe}}
{{sortname|John|Roe|John Roe (politician)}}".

Definition house_text : string :=
  "==Voting members by state==
{{sortname|Ann|Lee}}".

Definition jane_text : string := "{{Infobox officeholder|image=Jane_Doe.jpg}}".
Definition john_text : string := "{{Infobox senator|image=John Roe.jpg}}".
Definition ann_text : string := "Ann Lee is a politician.".

Definition article (title content : string) : element :=
  api [] [page "API" [revisions "An API is an interface between programs."];
          page title [revisions content]].

Definition image_answer (title url : string) : element :=
  api [] [page "API" []; page title [imageinfo url]].

Definition lookup {K A : Type} `{EqDecision K} (table : list (K * A))
    (default : A) (key : K) : A :=
  match find (fun kv => bool_decide (fst kv = key)) table with
  | Some kv => snd kv
  | None => default
  end.

Definition env : Env := {|
  api_get :=
    lookup
      [(api_url (article_params SENATE_PAGE_NAME),
        Ok (article SENATE_PAGE_NAME senate_text));
       (api_url (article_params HOUSE_PAGE_NAME),
        Ok (article HOUSE_PAGE_NAME house_text));
       (api_url (article_params "Jane Doe"), Ok (article "Jane Doe" jane_text));
       (api_url (article_params "John Roe (politician)"),
        Ok (article "John Roe (politician)" john_text));
       (api_url (article_params "Ann Lee"), Ok (article "Ann Lee" ann_text));
       (api_url (imageinfo_params "File:Jane_Doe.jpg"),
        Ok (api [n "File:Jane_Doe.jpg" "File:Jane Doe.jpg"]
               [page "API" [];
                page "File:Jane Doe.jpg"
                  [imageinfo "http://upload.example.org/Jane_Doe.jpg"]]));
       (api_url (imageinfo_params "File:John Roe.jpg"),
        Ok (image_answer "File:John Roe.jpg"
              "http://upload.example.org/John_Roe.jpg"))]
      (Raise (ExternalError "ConnectionError"));
  image_get :=
    lookup
      [(Some "http://upload.example.org/Jane_Doe.jpg", Ok (Response 404 [] None));
       (Some "http://upload.example.org/John_Roe.jpg",
        Ok (Response 200 ["JFIF"; "pixels"] None))]
      (Raise (ExternalError "ConnectionError"));
  filter_templates :=
    lookup
      [(Some jane_text,
        [Wikicode.MkTemplate "Infobox officeholder"
           [Wikicode.MkParam "image" "Jane_Doe.jpg"]]);
       (Some john_text,
        [Wikicode.MkTemplate "Infobox senator"
           [Wikicode.MkParam "image" "John Roe.jpg"]])]
      [];
  get_sections := fun text name =>
    lookup
      [((Some senate_text, "Senators"), [senate_text]);
       ((Some house_text, "Voting members by state"), [house_text])]
      [] (text, name);
  xpath_other := fun _ _ => Raise (ExternalError "XPathEvalError");
  open_ok := fun _ => true;
  stdout_error := fun _ => None
|}.

(** The same run with the transfer of John Roe's portrait cut after the
    first chunk. *)
Definition env_cut : Env := {|
  api_get := api_get env;
  image_get :=
    lookup
      [(Some "http://upload.example.org/John_Roe.jpg",
        Ok (Response 200 ["JFIF"] (Some (ExternalError "ProtocolError"))))]
      (Raise (ExternalError "ConnectionError"));
  filter_templates := filter_templates env;
  get_sections := get_sections env;
  xpath_other := xpath_other env;
  open_ok := open_ok env;
  stdout_error := stdout_error env
|}.

(** The same run with an empty read in the middle of the transfer of
    John Roe's portrait. *)
Definition env_gap : Env := {|
  api_get := api_get env;
  image_get :=
    lookup
      [(Some "http://upload.example.org/John_Roe.jpg",
        Ok (Response 200 ["JFIF"; EmptyString; "pixels"] None))]
      (Raise (ExternalError "ConnectionError"));
  filter_templates := filter_templates env;
  get_sections := get_sections env;
  xpath_other := xpath_other env;
  open_ok := open_ok env;
  stdout_error := stdout_error env
|}.

(** No network. *)
Definition env_offline : Env := {|
  api_get := fun _ => Raise (ExternalError "ConnectionError");
  image_get := fun _ => Raise (ExternalError "ConnectionError");
  filter_templates := fun _ => [];
  get_sections := fun _ _ => [];
  xpath_other := fun _ _ => Raise (ExternalError "XPathEvalError");
  open_ok := fun _ => true;
  stdout_error := fun _ => None
|}.

(** The members of the sample run, and a roster of one senator. *)
Definition jane : member := ("Jane", "Doe", Some EmptyString).
Definition john : member := ("John", "Roe", Some "|John Roe (politician)").
Definition ann : member := ("Ann", "Lee", Some EmptyString).

Definition env_jane : Env := {|
  api_get := fun _ => Ok (article SENATE_PAGE_NAME "{{sortname|Jane|Doe}}");
  image_get := image_get env;
  filter_templates := filter_templates env;
  get_sections := fun _ _ => ["{{sortname|Jane|Doe}}"];
  xpath_other := xpath_other env;
  open_ok := open_ok env;
  stdout_error := stdout_error env
|}.

(** A standard output whose encoding is ASCII. *)
Definition ascii_only (s : string) : option exn :=
  if PyStr.all_chars (fun c => PyStr.code c <? 128) s then None
  else Some (ExternalError "UnicodeEncodeError").

(** A member whose first name ends with U+00E9. *)
Definition e_acute : ascii := "233"%char.

Definition jose : member :=
  ("Jos" +:+ String e_acute EmptyString, "Doe", Some EmptyString).

Definition jose_text : string :=
  "{{sortname|Jos" +:+ String e_acute "|Doe}}".

(** Both rosters read, one member each, on an ASCII standard output. *)
Definition env_ascii : Env := {|
  api_get := fun _ => Ok (article SENATE_PAGE_NAME jose_text);
  image_get := image_get env;
  filter_templates := filter_templates env;
  get_sections := fun _ _ => [jose_text];
  xpath_other := xpath_other env;
  open_ok := open_ok env;
  stdout_error := ascii_only
|}.

End Sample.

(** ** More observations on a trace *)

(** The text that a trace prints on standard output. *)
Fixpoint stdout_of (t : list event) : string :=
  match t with
  | [] => EmptyString
  | EvStdout s :: t' => s +:+ stdout_of t'
  | _ :: t' => stdout_of t'
  end.

(** The URLs that a trace requests, in order. *)
Definition requests (t : list event) : list (option string) :=
  omap (fun e => match e with EvRequest url => Some url | _ => None end) t.

(** Does the trace open the file [name] with success? *)
Fixpoint opens (name : string) (t : list event) : bool :=
  match t with
  | [] => false
  | EvOpen n true :: t' => bool_decide (n = name) || opens name t'
  | _ :: t' => opens name t'
  end.

(** The discipline of file handles: [cur] is the file that is open.  A
    file is opened only when none is open, written and closed only while
    it is the open one.  The result is the file left open at the end,
    [None] for a trace that breaks the discipline. *)
Fixpoint protocol (cur : option string) (t : list event)
  : option (option string) :=
  match t with
  | [] => Some cur
  | EvOpen n ok :: t' =>
      match cur with
      | None => protocol (if ok then Some n else None) t'
      | Some _ => None
      end
  | EvWrite n _ :: t' =>
      if decide (cur = Some n) then protocol cur t' else None
  | EvClose n :: t' =>
      if decide (cur = Some n) then protocol None t' else None
  | _ :: t' => protocol cur t'
  end.

(** The chunks that a copy writes: those before the first empty one. *)
Fixpoint copied (chunks : list string) : list string :=
  match chunks with
  | [] => []
  | chunk :: rest =>
      if PyStr.truthy (Some chunk) then chunk :: copied rest else []
  end.

(** The text that a turn of the loop writes after its [try] statement. *)
Definition outcome_text (env : Env) (m : member) : string :=
  (if pipeline_raises env m then " FAILED." else " OK") +:+ LF.

(** What the standard output raises in the turn of the loop for [m], if
    anything: at the progress text (line 65), or else at the text of the
    outcome (lines 70 and 74). *)
Definition turn_error (env : Env) (m : member) : option exn :=
  match stdout_error env (failure_name m +:+ "...") with
  | Some e => Some e
  | None => stdout_error env (outcome_text env m)
  end.

(** What a turn of the loop does after its [try] statement: nothing when
    the standard output refuses the text of the outcome. *)
Definition outcome_events (env : Env) (m : member) : list event :=
  match stdout_error env (outcome_text env m) with
  | Some _ => []
  | None =>
      match snd (member_pipeline env m) with
      | Ok _ => [EvStdout (" OK" +:+ LF)]
      | Raise x => [EvStdout (" FAILED." +:+ LF); EvTraceback x]
      end
  end.

(** The failure list after the turn of the loop for [m]. *)
Definition record (env : Env) (failures : list string) (m : member)
  : list string :=
  if pipeline_raises env m then failures ++ [failure_name m] else failures.

(** What the standard output raises in the loop over [members]: the error
    of the first turn that has one. *)
Fixpoint loop_error (env : Env) (members : list member) : option exn :=
  match members with
  | [] => None
  | m :: rest =>
      match turn_error env m with
      | Some e => Some e
      | None => loop_error env rest
      end
  end.

(** The two texts that [main] prints outside its loop, and [main] from
    line 57 on, for the rosters that lines 55 and 56 have read. *)
Definition loading_text (senators representatives : list member) : string :=
  "loading images for " +:+ str_of_nat (length senators)
    +:+ " senators and " +:+ str_of_nat (length representatives)
    +:+ " representatives".

Definition report_text (failures : list string) : string :=
  "failures:" +:+ LF +:+ PyStr.join LF (PyStr.sorted failures).

Definition run_of_rosters (env : Env) (senators representatives : list member)
  : M unit :=
  print env (loading_text senators representatives);;
  let* failures := main_loop env [] (senators ++ representatives) in
  print env (report_text failures).


(** ** The inverse of [urllib.parse.quote] on its image *)

Module Unquote.

Definition hex_value (c : ascii) : option nat :=
  let n := PyStr.code c in
  if (48 <=? n) && (n <=? 57) then Some (n - 48)
  else if (65 <=? n) && (n <=? 70) then Some (n - 55)
  else None.

(** The byte of a [%XX] at the head of a text. *)
Definition byte (s : string) : option (nat * string) :=
  match s with
  | String "%" (String h (String l rest)) =>
      match hex_value h, hex_value l with
      | Some a, Some b => Some (16 * a + b, rest)
      | _, _ => None
      end
  | _ => None
  end.

(** The character that the head of a quoted text stands for. *)
Definition char (s : string) : option (ascii * string) :=
  match s with
  | EmptyString => None
  | String "%" _ =>
      match byte s with
      | Some (b1, rest) =>
          if b1 <? 128 then Some (ascii_of_nat b1, rest)
          else
            match byte rest with
            | Some (b2, rest') =>
                Some (ascii_of_nat ((b1 - 192) * 64 + (b2 - 128)), rest')
            | None => None
            end
      | None => None
      end
  | String c rest => Some (c, rest)
  end.

End Unquote.

(** What [quote] puts for one character. *)
Definition quote_char (c : ascii) : string :=
  if Urllib.is_safe c then String c EmptyString
  else foldr (fun b acc => Urllib.percent b +:+ acc) EmptyString (Urllib.utf8 c).

(** The characters of a quoted text. *)
Definition url_char (c : ascii) : bool :=
  Urllib.is_safe c || Ascii.eqb c "%".

(** The effects that touch no file. *)
Definition neutral (e : event) : bool :=
  match e with
  | EvStdout _ | EvTraceback _ | EvRequest _ => true
  | _ => false
  end.

(** The effects of a download into [file]: requests, and writes to it. *)
Definition feeds (file : string) (e : event) : Prop :=
  match e with
  | EvRequest _ => True
  | EvWrite n _ => n = file
  | _ => False
  end.

(** No literal of the pattern holds a line break. *)
Fixpoint line_bound (r : Re.regex) : bool :=
  match r with
  | Re.Lit p => PyStr.free_of [Re.newline] p
  | Re.LazyDotStar => true
  | Re.Cat r1 r2 => line_bound r1 && line_bound r2
  | Re.Group _ r' => line_bound r'
  | Re.Opt r' => line_bound r'
  end.

(** ** The matcher of [RE_SORTNAME], step by step

    What is left to match after the opening, after the first name, after
    the last name and at the closing braces; [Re.match_at RE_SORTNAME] is
    their composition (lemma [match_at_sortname]). *)

Definition sn_close (caps : Re.captures) (s : string)
  : option (Re.captures * string) :=
  match Re.strip_prefix "}}" s with
  | Some rest => Some (caps, rest)
  | None => None
  end.

Definition sn_article (f l : string) (s : string)
  : option (Re.captures * string) :=
  match
    match Re.strip_prefix "|" s with
    | Some s' =>
        Re.lazy_dot_star
          (fun s'' => sn_close [Some f; Some l; Some (Re.consumed s s'')] s'')
          s'
    | None => None
    end
  with
  | Some x => Some x
  | None => sn_close [Some f; Some l; None] s
  end.

Definition sn_last (f : string) (s : string)
  : option (Re.captures * string) :=
  match Re.strip_prefix "|" s with
  | Some s1 =>
      Re.lazy_dot_star (fun s2 => sn_article f (Re.consumed s1 s2) s2) s1
  | None => None
  end.

Definition sn_first (s : string) : option (Re.captures * string) :=
  Re.lazy_dot_star (fun s0 => sn_last (Re.consumed s s0) s0) s.

(** Does [sub] occur in [s]? *)
Fixpoint occurs (sub s : string) : bool :=
  bool_decide (is_Some (Re.strip_prefix sub s))
  || match s with
     | EmptyString => false
     | String _ s' => occurs sub s'
     end.

(** The environment [env] in a directory where no file can be opened for
    writing. *)
Definition read_only (env : Env) : Env := {|
  api_get := api_get env;
  image_get := image_get env;
  filter_templates := filter_templates env;
  get_sections := get_sections env;
  xpath_other := xpath_other env;
  open_ok := fun _ => false;
  stdout_error := stdout_error env
|}.

(** The characters that structure the query string of a request, and the
    white space that would break its line. *)
Definition QUERY_DELIMITERS : list ascii :=
  ["&"; "="; "|"; "#"; "?"; " "; Re.newline]%char.

(** The effects of a turn that cannot open its file. *)
Definition idle (e : event) : Prop :=
  match e with
  | EvStdout _ | EvTraceback _ | EvOpen _ false => True
  | _ => False
  end.

(** * Proofs *)

Ltac char_cases :=
  cbn [existsb negb orb andb];
  repeat match goal with
    | |- context [Ascii.eqb ?c ?d] =>
        destruct (Ascii.eqb c d) eqn:?; cbn [existsb negb orb andb]
    end; try done.


(** * Facts on strings *)

Section StringFacts.

Implicit Types s t u p : string.

Lemma str_app_cons c s t : String c s +:+ t = String c (s +:+ t).
Proof. reflexivity. Qed.

Lemma str_app_nil_r s : s +:+ EmptyString = s.
Proof. induction s as [|c s IH]; [reflexivity|]. by rewrite str_app_cons, IH. Qed.

Lemma str_app_assoc s t u : (s +:+ t) +:+ u = s +:+ (t +:+ u).
Proof. induction s as [|c s IH]; [reflexivity|]. by rewrite !str_app_cons, IH. Qed.

Lemma str_length_app s t :
  String.length (s +:+ t) = String.length s + String.length t.
Proof.
  induction s as [|c s IH]; [reflexivity|].
  rewrite str_app_cons. simpl. by rewrite IH.
Qed.

Lemma strip_prefix_app p s : Re.strip_prefix p (p +:+ s) = Some s.
Proof.
  induction p as [|c p IH]; [reflexivity|].
  rewrite str_app_cons. simpl. by rewrite Ascii.eqb_refl.
Qed.

Lemma strip_prefix_inv p s s' :
  Re.strip_prefix p s = Some s' -> s = p +:+ s'.
Proof.
  revert s. induction p as [|c p IH]; intros s H; simpl in H.
  - by inversion H.
  - destruct s as [|d s]; [discriminate|].
    destruct (Ascii.eqb_spec c d) as [->|]; [|discriminate].
    rewrite str_app_cons. f_equal. by apply IH.
Qed.

Lemma substring_app p s : String.substring 0 (String.length p) (p +:+ s) = p.
Proof.
  induction p as [|c p IH]; simpl.
  - by destruct s.
  - rewrite ?str_app_cons. simpl. by rewrite IH.
Qed.

Lemma consumed_app p s : Re.consumed (p +:+ s) s = p.
Proof.
  unfold Re.consumed. rewrite str_length_app.
  replace (String.length p + String.length s - String.length s)
    with (String.length p) by lia.
  apply substring_app.
Qed.

End StringFacts.


(** * Facts on the matcher *)

Section LazyStar.

Context {R : Type} (k : string -> option R).

Lemma lazy_dot_star_hit s x :
  k s = Some x -> Re.lazy_dot_star k s = Some x.
Proof. intros H. destruct s; simpl; by rewrite H. Qed.

(** The star runs over a prefix at whose characters the continuation
    cannot succeed. *)
Lemma lazy_dot_star_skip (ok : ascii -> bool) p s :
  (forall c s', ok c = true -> k (String c s') = None) ->
  PyStr.all_chars (fun c => ok c && negb (Ascii.eqb c Re.newline)) p = true ->
  Re.lazy_dot_star k (p +:+ s) = Re.lazy_dot_star k s.
Proof.
  intros Hk. induction p as [|c p IH]; [reflexivity|].
  simpl. intros [[Hc Hn%negb_true_iff]%andb_true_iff Hp]%andb_true_iff.
  rewrite ?str_app_cons. simpl. rewrite (Hk _ _ Hc), Hn. auto.
Qed.

(** The star gives up at the end of the line when the continuation wants
    a [|] and none is left. *)
Lemma lazy_dot_star_dead s :
  (forall c s', Ascii.eqb c "|"%char = false -> k (String c s') = None) ->
  k EmptyString = None ->
  no_pipe_on_line s = true ->
  Re.lazy_dot_star k s = None.
Proof.
  intros Hk H0. induction s as [|c s IH]; simpl.
  - by rewrite H0.
  - destruct (Ascii.eqb c Re.newline) eqn:En.
    + intros _. rewrite Hk; [done|].
      apply Ascii.eqb_eq in En as ->. reflexivity.
    + destruct (Ascii.eqb c "|"%char) eqn:Ep; [discriminate|].
      intros Hs. rewrite (Hk _ _ Ep). auto.
Qed.

(** A success of the star is a success of the continuation, after a
    prefix without a line break. *)
Lemma lazy_dot_star_inv s x :
  Re.lazy_dot_star k s = Some x ->
  exists p s', s = p +:+ s' /\ k s' = Some x /\ PyStr.free_of [Re.newline] p = true.
Proof.
  induction s as [|c s IH]; simpl.
  - destruct (k EmptyString) eqn:E; [|discriminate].
    intros [= <-]. by exists EmptyString, EmptyString.
  - destruct (k (String c s)) eqn:E.
    + intros [= <-]. by exists EmptyString, (String c s).
    + destruct (Ascii.eqb c Re.newline) eqn:En; [discriminate|].
      intros (p & s' & -> & Hk & Hp)%IH.
      exists (String c p), s'. split; [reflexivity|]. split; [done|].
      unfold PyStr.free_of in *. cbn -[Ascii.eqb] in *.
      by rewrite Hp, En.
Qed.

End LazyStar.


Lemma all_chars_impl (p q : ascii -> bool) s :
  (forall c, p c = true -> q c = true) ->
  PyStr.all_chars p s = true -> PyStr.all_chars q s = true.
Proof.
  intros Hpq. induction s as [|c s IH]; [done|]. simpl.
  intros [Hc Hs]%andb_true_iff. by rewrite (Hpq _ Hc), IH.
Qed.

Lemma strip_prefix_head_ne d p c s :
  Ascii.eqb d c = false -> Re.strip_prefix (String d p) (String c s) = None.
Proof. intros H. simpl. by rewrite H. Qed.



(** The pattern matches a citation at the head of a text, and captures its
    arguments. *)
Lemma match_at_cite c rest :
  wf_citation c = true ->
  Re.match_at RE_SORTNAME RE_SORTNAME_groups (cite c +:+ rest)
  = Some ([Some (c_first c); Some (c_last c);
           (fun a => "|" +:+ a) <$> c_article c], rest).
Proof.
  destruct c as [f l a]. unfold wf_citation, cite, article_suffix.
  cbn [c_first c_last c_article].
  intros [[Hf Hl]%andb_true_iff Ha]%andb_true_iff.
  unfold Re.match_at, RE_SORTNAME, RE_SORTNAME_groups, OPENING.
  cbn [Re.exec replicate].
  rewrite !str_app_assoc, strip_prefix_app.
  rewrite (lazy_dot_star_skip _ (fun c => negb (Ascii.eqb c "|"%char))).
  2:{ intros c s' Hc%negb_true_iff. cbv beta.
      rewrite strip_prefix_head_ne; [done|]. by rewrite Ascii.eqb_sym. }
  2:{ revert Hf. apply all_chars_impl. intros c. char_cases. }
  apply lazy_dot_star_hit.
  rewrite strip_prefix_app.
  rewrite (lazy_dot_star_skip _
             (fun c => negb (Ascii.eqb c "|"%char) && negb (Ascii.eqb c "}"%char))).
  2:{ intros c s' [Hc1%negb_true_iff Hc2%negb_true_iff]%andb_true_iff. cbv beta.
      rewrite !strip_prefix_head_ne; [done|by rewrite Ascii.eqb_sym..]. }
  2:{ revert Hl. apply all_chars_impl. intros c. char_cases. }
  apply lazy_dot_star_hit.
  rewrite !consumed_app.
  destruct a as [a|]; cbn [fmap option_fmap option_map].
  - rewrite !str_app_assoc, strip_prefix_app.
    rewrite (lazy_dot_star_skip _ (fun c => negb (Ascii.eqb c "}"%char))).
    2:{ intros c s' Hc%negb_true_iff. cbv beta.
        rewrite strip_prefix_head_ne; [done|]. by rewrite Ascii.eqb_sym. }
    2:{ revert Ha. apply all_chars_impl. intros c. char_cases. }
    rewrite (lazy_dot_star_hit _ _
               ([Some f; Some l; Some ("|" +:+ a)], rest)); [done|].
    rewrite strip_prefix_app.
    rewrite <- (str_app_assoc "|" a). by rewrite consumed_app.
  - done.
Qed.


(** No match begins where [dead_start] holds. *)
Lemma match_at_dead s :
  dead_start s = true ->
  Re.match_at RE_SORTNAME RE_SORTNAME_groups s = None.
Proof.
  unfold dead_start, Re.match_at, RE_SORTNAME, RE_SORTNAME_groups, OPENING.
  cbn [Re.exec replicate].
  destruct (Re.strip_prefix "{{sortname|" s) as [s1|]; [|done].
  apply lazy_dot_star_dead; [|done].
  intros c s' Hc. rewrite strip_prefix_head_ne; [done|].
  by rewrite Ascii.eqb_sym.
Qed.

(** The scan steps over the characters of a match. *)
Lemma findall_from_skip r n p s :
  Re.findall_from r n (String.length p) (p +:+ s) = Re.findall_from r n 0 s.
Proof. induction p as [|c p IH]; [reflexivity|]. rewrite str_app_cons. apply IH. Qed.

Lemma findall_from_match r n s caps rest c p :
  s = String c p +:+ rest ->
  Re.match_at r n s = Some (caps, rest) ->
  Re.findall_from r n 0 s
  = (Re.group_text <$> caps) :: Re.findall_from r n 0 rest.
Proof.
  intros -> Hm. rewrite str_app_cons. cbn [Re.findall_from].
  rewrite <- str_app_cons, Hm, str_app_cons. f_equal.
  replace (String.length (String c (p +:+ rest)) - String.length rest - 1)
    with (String.length p).
  - apply findall_from_skip.
  - cbn [String.length]. rewrite str_length_app. lia.
Qed.

Lemma findall_from_inert sep following :
  inert sep following = true ->
  Re.findall_from RE_SORTNAME RE_SORTNAME_groups 0 (sep +:+ following)
  = Re.findall_from RE_SORTNAME RE_SORTNAME_groups 0 following.
Proof.
  induction sep as [|c sep IH]; [reflexivity|].
  cbn [inert]. intros [Hd Hi]%andb_true_iff.
  rewrite str_app_cons in *. cbn [Re.findall_from].
  rewrite (match_at_dead _ Hd). auto.
Qed.

Lemma findall_from_empty :
  Re.findall_from RE_SORTNAME RE_SORTNAME_groups 0 EmptyString = [].
Proof. reflexivity. Qed.

Lemma findall_cite c rest :
  wf_citation c = true ->
  Re.findall_from RE_SORTNAME RE_SORTNAME_groups 0 (cite c +:+ rest)
  = tuple_of c :: Re.findall_from RE_SORTNAME RE_SORTNAME_groups 0 rest.
Proof.
  intros Hc.
  etrans.
  { eapply (findall_from_match _ _ (cite c +:+ rest) _ rest "{"%char
             ("{sortname|" +:+ c_first c +:+ "|" +:+ c_last c
                +:+ article_suffix c +:+ "}}")); [reflexivity|].
    by apply match_at_cite. }
  f_equal. unfold tuple_of, article_suffix.
  by destruct (c_article c).
Qed.

Lemma findall_render segs tail :
  forallb wf_citation (snd <$> segs) = true ->
  separators_inert segs tail = true ->
  Re.findall RE_SORTNAME RE_SORTNAME_groups (render segs tail)
  = tuple_of <$> (snd <$> segs).
Proof.
  unfold Re.findall. induction segs as [|[sep c] segs IH].
  - intros _ Hi. cbn [render separators_inert] in *.
    rewrite <- (str_app_nil_r tail). rewrite (findall_from_inert _ _ Hi). done.
  - cbn [render separators_inert fmap list_fmap forallb snd].
    intros [Hc Hs]%andb_true_iff [Hi Hr]%andb_true_iff.
    rewrite (findall_from_inert _ _ Hi), (findall_cite _ _ Hc). f_equal. auto.
Qed.


(** What a match captures: both names, and for the article name either
    nothing or a text that begins with the separator. *)
Lemma match_at_inv s caps rest :
  Re.match_at RE_SORTNAME RE_SORTNAME_groups s = Some (caps, rest) ->
  exists f l a,
    caps = [Some f; Some l; a]
    /\ (a = None \/ exists t, a = Some (String "|"%char t))
    /\ s = OPENING +:+ f +:+ "|" +:+ l +:+ Re.group_text a +:+ "}}" +:+ rest.
Proof.
  unfold Re.match_at, RE_SORTNAME, RE_SORTNAME_groups, OPENING.
  cbn [Re.exec replicate].
  destruct (Re.strip_prefix "{{sortname|" s) as [s1|] eqn:E1; [|done].
  apply strip_prefix_inv in E1 as ->.
  intros (f & s2 & -> & H2 & _)%lazy_dot_star_inv.
  destruct (Re.strip_prefix "|" s2) as [s3|] eqn:E3; [|done].
  apply strip_prefix_inv in E3 as ->.
  apply lazy_dot_star_inv in H2 as (l & s4 & -> & H4 & _).
  rewrite !consumed_app in H4.
  destruct (Re.strip_prefix "|" s4) as [s5|] eqn:E5.
  - apply strip_prefix_inv in E5 as ->.
    destruct (Re.lazy_dot_star _ s5) as [x|] eqn:E6.
    + injection H4 as ->.
      apply lazy_dot_star_inv in E6 as (t & s6 & -> & H6 & _).
      destruct (Re.strip_prefix "}}" s6) as [s7|] eqn:E7; [|done].
      apply strip_prefix_inv in E7 as ->.
      rewrite <- (str_app_assoc "|" t), consumed_app in H6.
      injection H6 as <- <-.
      exists f, l, (Some ("|" +:+ t)). split; [done|]. split; [eauto|].
      cbn [Re.group_text]. by rewrite !str_app_assoc.
    + destruct (Re.strip_prefix "}}" ("|" +:+ s5)) eqn:E7; [|done].
      discriminate E7.
  - destruct (Re.strip_prefix "}}" s4) as [s7|] eqn:E7; [|done].
    apply strip_prefix_inv in E7 as ->. injection H4 as <- <-.
    exists f, l, None. split; [done|]. split; [eauto|]. done.
Qed.

(** Every tuple of [findall] has its three components, the third either
    empty or opened by the separator. *)
Lemma findall_from_shape skip s g :
  g ∈ Re.findall_from RE_SORTNAME RE_SORTNAME_groups skip s ->
  exists f l a, g = [f; l; a]
    /\ (a = EmptyString \/ exists t, a = String "|"%char t).
Proof.
  revert skip. induction s as [|c s IH]; intros [|skip]; cbn [Re.findall_from].
  - destruct (Re.match_at _ _ _) as [[caps rest]|] eqn:E; [|by intros ?%elem_of_nil].
    discriminate E.
  - by intros ?%elem_of_nil.
  - destruct (Re.match_at _ _ _) as [[caps rest]|] eqn:E; [|by apply IH].
    intros [->|Hg]%elem_of_cons; [|by eapply IH].
    apply match_at_inv in E as (f & l & a & -> & Ha & _).
    exists f, l, (Re.group_text a). split; [done|].
    destruct Ha as [->|[t ->]]; [by left|right; by exists t].
  - apply IH.
Qed.


(** * Facts on the effects *)

Section Traces.

Context (P : event -> Prop).

Lemma trace_all_bind {A B : Type} (m : M A) (k : A -> M B) :
  trace_all P m -> (forall a, trace_all P (k a)) -> trace_all P (bind m k).
Proof.
  unfold trace_all, bind. destruct m as [t [a|e]]; [|done].
  intros Ht Hk. specialize (Hk a). destruct (k a) as [t' r].
  by apply Forall_app.
Qed.

Lemma trace_all_lift {A : Type} (r : result A) : trace_all P (lift r).
Proof. constructor. Qed.

Lemma trace_all_emit e : P e -> trace_all P (emit e).
Proof. intros. by repeat constructor. Qed.

End Traces.

Lemma wiki_query_quiet env kwargs : trace_all quiet (wiki_query env kwargs).
Proof.
  apply trace_all_bind; [by apply trace_all_emit|].
  intros _. apply trace_all_lift.
Qed.

(** A copy writes the chunks before the first empty one; it ends with the
    error of the response when no chunk is empty, and without an error
    otherwise. *)
Lemma copy_chunks_trace name chunks error :
  fst (copy_chunks name chunks error) = EvWrite name <$> copied chunks.
Proof.
  induction chunks as [|chunk rest IH]; cbn [copy_chunks copied].
  - by destruct error.
  - destruct (PyStr.truthy (Some chunk)); [|done].
    cbn [bind emit]. destruct (copy_chunks name rest error) as [t r].
    cbn [fst] in *. by rewrite IH.
Qed.

Lemma copy_chunks_result name chunks error :
  snd (copy_chunks name chunks error)
  = if forallb (fun chunk => PyStr.truthy (Some chunk)) chunks
    then match error with
         | Some e => Raise e
         | None => Ok tt
         end
    else Ok tt.
Proof.
  induction chunks as [|chunk rest IH]; cbn [copy_chunks forallb].
  - by destruct error.
  - destruct (PyStr.truthy (Some chunk)); [|done].
    cbn [bind emit andb]. destruct (copy_chunks name rest error) as [t r].
    cbn [snd] in *. by rewrite IH.
Qed.


(** The download opens no file and prints nothing: it requests and writes. *)
Lemma download_quiet env title file :
  trace_all quiet (download_congress_portrait env title file).
Proof.
  unfold download_congress_portrait, wiki_query_article, wiki_query_image_url.
  repeat (first [ apply trace_all_bind | apply trace_all_lift
                | apply wiki_query_quiet | by apply trace_all_emit | intros ? ]).
  - unfold raise_for_status. case_match; constructor.
  - unfold copyfileobj, trace_all. rewrite copy_chunks_trace.
    apply Forall_fmap, Forall_true. done.
Qed.

Lemma quiet_not_opened e : quiet e -> opened e = None.
Proof. by destruct e. Qed.

Lemma written_app name t1 t2 :
  written name (t1 ++ t2) = written name t1 +:+ written name t2.
Proof.
  induction t1 as [|e t1 IH]; [reflexivity|].
  destruct e; cbn [written app]; try done.
  case_decide; [|done]. by rewrite IH, str_app_assoc.
Qed.

Lemma written_chunks name chunks :
  written name (EvWrite name <$> chunks) = String.concat EmptyString chunks.
Proof.
  induction chunks as [|d chunks IH]; [reflexivity|].
  cbn [fmap list_fmap written]. rewrite decide_True by done.
  fold (list_fmap _ _ (EvWrite name) chunks). 
  change (list_fmap _ _ (EvWrite name) chunks) with (EvWrite name <$> chunks).
  rewrite IH.
  destruct chunks; [apply str_app_nil_r|reflexivity].
Qed.

(** The content of a file after a trace that does not reopen it. *)
Lemma replay_written name t :
  Forall (fun e => opened e = None) t ->
  forall (fs : gmap string string) c,
    fs !! name = Some c ->
    replay fs t !! name = Some (c +:+ written name t).
Proof.
  unfold replay.
  induction 1 as [|e t He Ht IH]; intros fs c Hc; cbn [foldl written].
  - by rewrite str_app_nil_r.
  - destruct e; cbn [apply_event]; try (by apply IH); try discriminate.
    case_decide as Hn.
    + subst. rewrite <- str_app_assoc. apply IH.
      by rewrite lookup_insert_eq, Hc.
    + apply IH. by rewrite lookup_insert_ne.
Qed.

Lemma fst_bind {A B : Type} (m : M A) (k : A -> M B) :
  fst (bind m k)
  = fst m ++ match snd m with
             | Ok a => fst (k a)
             | Raise _ => []
             end.
Proof.
  destruct m as [t [a|e]]; cbn [bind fst snd].
  - by destruct (k a).
  - by rewrite (right_id_L [] (++)).
Qed.

Lemma snd_bind {A B : Type} (m : M A) (k : A -> M B) :
  snd (bind m k)
  = match snd m with
    | Ok a => snd (k a)
    | Raise e => Raise e
    end.
Proof. destruct m as [t [a|e]]; cbn [bind snd]; [|done]. by destruct (k a). Qed.

(** A write to the standard output. *)
Lemma stdout_write_unfold env s :
  stdout_write env s
  = match stdout_error env s with
    | Some e => ([], Raise e)
    | None => ([EvStdout s], Ok tt)
    end.
Proof. unfold stdout_write. by destruct (stdout_error env s). Qed.

Lemma member_pipeline_unfold env m :
  member_pipeline env m
  = if open_ok env (img_file_name m)
    then (EvOpen (img_file_name m) true
            :: fst (download_congress_portrait env (article_title m)
                      (img_file_name m)) ++ [EvClose (img_file_name m)],
          snd (download_congress_portrait env (article_title m)
                 (img_file_name m)))
    else ([EvOpen (img_file_name m) false], Raise (ExternalError "OSError")).
Proof.
  unfold member_pipeline, with_open_wb.
  destruct (open_ok env _); [|done].
  by destruct (download_congress_portrait env _ _).
Qed.

(** The [try] statement opens the file of the member, once, and no other. *)
Lemma member_pipeline_opened env m :
  omap opened (fst (member_pipeline env m)) = [img_file_name m].
Proof.
  rewrite member_pipeline_unfold.
  assert (omap opened
            (fst (download_congress_portrait env (article_title m)
                    (img_file_name m))) = []) as Hq.
  { pose proof (download_quiet env (article_title m) (img_file_name m)) as H.
    unfold trace_all in H. induction H as [|e t He _ IH]; [done|].
    cbn [omap list_omap]. by rewrite (quiet_not_opened _ He). }
  destruct (open_ok env _); cbn [fst]; [|done].
  change (?x :: ?t ++ ?u) with ([x] ++ t ++ u).
  by rewrite !omap_app, Hq.
Qed.

(** One turn of the loop.  The progress text is written before the [try]
    statement and the text of the outcome in its [except] and [else]
    clauses: an exception of the standard output leaves the turn. *)
Lemma main_body_result env failures m :
  snd (main_body env failures m)
  = match turn_error env m with
    | Some e => Raise e
    | None => Ok (record env failures m)
    end.
Proof.
  unfold main_body, turn_error, outcome_text, record, pipeline_raises.
  rewrite snd_bind, stdout_write_unfold.
  destruct (stdout_error env (failure_name m +:+ "...")); [done|].
  cbn [snd]. unfold try_except.
  destruct (member_pipeline env m) as [t [[]|x]]; cbn [snd raises];
    rewrite stdout_write_unfold; destruct (stdout_error env _); done.
Qed.

Lemma main_body_trace env failures m :
  fst (main_body env failures m)
  = match stdout_error env (failure_name m +:+ "...") with
    | Some _ => []
    | None =>
        EvStdout (failure_name m +:+ "...")
          :: fst (member_pipeline env m) ++ outcome_events env m
    end.
Proof.
  unfold main_body, outcome_events, outcome_text, pipeline_raises.
  rewrite fst_bind, stdout_write_unfold.
  destruct (stdout_error env (failure_name m +:+ "...")); [done|].
  cbn [fst snd app]. unfold try_except.
  destruct (member_pipeline env m) as [t [[]|x]]; cbn [fst snd raises];
    rewrite stdout_write_unfold; destruct (stdout_error env _);
    cbn [bind emit ret app fst]; by rewrite ?(right_id_L [] (++)).
Qed.


Lemma main_loop_cons env failures m rest :
  main_loop env failures (m :: rest)
  = match turn_error env m with
    | Some e => (fst (main_body env failures m), Raise e)
    | None =>
        (fst (main_body env failures m)
           ++ fst (main_loop env (record env failures m) rest),
         snd (main_loop env (record env failures m) rest))
    end.
Proof.
  cbn [main_loop]. pose proof (main_body_result env failures m) as Hr.
  destruct (main_body env failures m) as [t r]. cbn [fst snd] in *. subst r.
  destruct (turn_error env m); cbn [bind]; [done|].
  by destruct (main_loop env _ rest).
Qed.

(** The loop ends with the error of the standard output, if there is one,
    and otherwise with the names of the members whose [try] statement
    raised behind the failures it started with. *)
Lemma main_loop_result env failures members :
  snd (main_loop env failures members)
  = match loop_error env members with
    | Some e => Raise e
    | None =>
        Ok (failures
              ++ (failure_name <$> List.filter (pipeline_raises env) members))
    end.
Proof.
  revert failures. induction members as [|m rest IH]; intros failures.
  - cbn. by rewrite (right_id_L [] (++)).
  - rewrite main_loop_cons. cbn [loop_error List.filter].
    destruct (turn_error env m); [done|]. cbn [snd]. rewrite IH.
    destruct (loop_error env rest); [done|]. unfold record.
    destruct (pipeline_raises env m); [|done].
    cbn [fmap list_fmap]. by rewrite <- ?(assoc_L (++)).
Qed.

Lemma loop_error_app env l1 l2 :
  loop_error env (l1 ++ l2)
  = match loop_error env l1 with
    | Some e => Some e
    | None => loop_error env l2
    end.
Proof.
  induction l1 as [|m l1 IH]; [done|]. cbn [app loop_error].
  by destruct (turn_error env m).
Qed.


Lemma written_requests name t :
  Forall (fun e => is_request e = true) t -> written name t = EmptyString.
Proof. induction 1 as [|[] t He _ IH]; try done. Qed.

Lemma wiki_query_requests env kwargs :
  trace_all (fun e => is_request e = true) (wiki_query env kwargs).
Proof.
  apply trace_all_bind; [by apply trace_all_emit|].
  intros _. apply trace_all_lift.
Qed.

Lemma wiki_query_article_requests env title :
  trace_all (fun e => is_request e = true) (wiki_query_article env title).
Proof.
  apply trace_all_bind; [apply wiki_query_requests|].
  intros ?. apply trace_all_lift.
Qed.

Lemma wiki_query_image_url_requests env file_name :
  trace_all (fun e => is_request e = true) (wiki_query_image_url env file_name).
Proof.
  apply trace_all_bind; [apply wiki_query_requests|].
  intros ?. apply trace_all_lift.
Qed.

(** What the download writes: nothing, or the chunks that the image
    response delivers before its first empty one. *)
Lemma download_written env title file :
  written file (fst (download_congress_portrait env title file)) = EmptyString
  \/ exists url r,
       image_get env url = Ok r
       /\ written file (fst (download_congress_portrait env title file))
          = String.concat EmptyString (copied (raw_chunks r)).
Proof.
  unfold download_congress_portrait.
  rewrite fst_bind, written_app,
    (written_requests _ _ (wiki_query_article_requests env title)).
  destruct (snd (wiki_query_article env title)) as [page_text|]; [|by left].
  rewrite fst_bind. cbn [lift fst snd app].
  destruct (wiki_read_officeholder_image_name env page_text)
    as [image_name|]; [|by left].
  rewrite fst_bind, written_app,
    (written_requests _ _ (wiki_query_image_url_requests env image_name)).
  destruct (snd (wiki_query_image_url env image_name)) as [image_url|];
    [|by left].
  rewrite fst_bind. cbn [emit fst snd app written].
  rewrite fst_bind. cbn [lift fst snd app].
  destruct (image_get env image_url) as [r|] eqn:Hr; [|by left].
  rewrite fst_bind. unfold raise_for_status.
  destruct (_ && _); [by left|]. cbn [ret fst snd app].
  unfold copyfileobj. rewrite copy_chunks_trace.
  right. exists image_url, r. split; [done|]. apply written_chunks.
Qed.


(** * Facts on element trees *)

(** Induction on an element, with the property at hand for its children. *)
Lemma element_ind_nested (P : Xml.element -> Prop) :
  (forall t a x cs, Forall P cs -> P (Xml.Element t a x cs)) ->
  forall e, P e.
Proof.
  intros step. fix IH 1. intros [t a x cs]. apply step.
  induction cs as [|c cs IHcs]; constructor; [apply IH|exact IHcs].
Qed.

Lemma iter_from_parent p q e :
  snd <$> Xml.iter_from p e = snd <$> Xml.iter_from q e.
Proof. by destruct e. Qed.

Lemma iter_unfold e : Xml.iter e = e :: Xml.descendants e.
Proof.
  unfold Xml.descendants, Xml.iter. destruct e as [t a x cs].
  cbn [Xml.iter_from Xml.children fmap list_fmap snd]. f_equal.
  induction cs as [|c cs IH]; [done|].
  cbn [flat_map]. rewrite fmap_app, IH. f_equal. apply iter_from_parent.
Qed.

Lemma sublist_flat_map {A B : Type} (f : A -> list B) x l :
  x ∈ l -> f x `sublist_of` flat_map f l.
Proof.
  induction 1 as [x l|x y l _ IH]; cbn [flat_map].
  - by apply sublist_inserts_r.
  - by apply sublist_inserts_l.
Qed.

Lemma elem_of_flat_map {A B : Type} (f : A -> list B) y l :
  y ∈ flat_map f l -> exists x, x ∈ l /\ y ∈ f x.
Proof.
  induction l as [|x l IH]; cbn [flat_map]; [by intros ?%elem_of_nil|].
  intros [H|H]%elem_of_app.
  - exists x. split; [left|done].
  - destruct (IH H) as (x' & ? & ?). exists x'. split; [by right|done].
Qed.

(** The elements below an element of the document come, in the same
    order, among the elements of the document. *)
Lemma iter_sublist root e :
  e ∈ Xml.iter root -> Xml.iter e `sublist_of` Xml.iter root.
Proof.
  revert root. apply (element_ind_nested
    (fun root => e ∈ Xml.iter root -> Xml.iter e `sublist_of` Xml.iter root)).
  intros t a x cs IH. rewrite (iter_unfold (Xml.Element t a x cs)).
  unfold Xml.descendants. cbn [Xml.children].
  intros [->|He]%elem_of_cons.
  - by rewrite <- iter_unfold.
  - apply sublist_cons. apply elem_of_flat_map in He as (c & Hc & He).
    rewrite Forall_forall in IH. etrans; [by apply IH|].
    by apply sublist_flat_map.
Qed.

Lemma descendants_sublist root e :
  e ∈ Xml.iter root -> Xml.descendants e `sublist_of` Xml.iter root.
Proof.
  intros He. etrans; [|by apply iter_sublist].
  rewrite iter_unfold. by apply sublist_cons.
Qed.

Lemma sublist_filter {A : Type} (P : A -> Prop) `{forall x, Decision (P x)}
    (l1 l2 : list A) :
  l1 `sublist_of` l2 -> filter P l1 `sublist_of` filter P l2.
Proof.
  induction 1 as [|x l1 l2 _ IH|x l1 l2 _ IH]; [done|..];
    rewrite ?filter_cons; repeat case_decide;
    try done; by constructor.
Qed.

(** The nodes called [name] below an element of the document are among
    the nodes called [name] of the document. *)
Lemma xpath_below_sublist name root e :
  e ∈ Xml.iter root ->
  Xml.xpath_below name e `sublist_of` Xml.xpath_all name root.
Proof. intros He. by apply sublist_filter, descendants_sublist. Qed.

Lemma xpath_attr_elem_of name key value root e :
  e ∈ Xml.xpath_attr name key value root ->
  e ∈ Xml.iter root /\ Xml.tag e = name /\ Xml.get e key = Some value.
Proof. unfold Xml.xpath_attr. by intros [[??]?]%list_elem_of_filter. Qed.


(** * Facts on the answers of the API *)

(** The loop over the mapping nodes keeps the [to] of the last node whose
    [from] is the query title. *)
Lemma response_title_of_last q ns :
  response_title_of q ns
  = match last (filter (fun n => Xml.get n "from" = Some q) ns) with
    | Some n => Xml.get n "to"
    | None => Some q
    end.
Proof.
  unfold response_title_of.
  assert (forall acc,
    foldl (fun response_title normalized =>
             if decide (Xml.get normalized "from" = Some q)
             then Xml.get normalized "to" else response_title) acc ns
    = match last (filter (fun n => Xml.get n "from" = Some q) ns) with
      | Some n => Xml.get n "to"
      | None => acc
      end) as H; [|apply H].
  induction ns as [|n ns IH]; intros acc; [done|].
  cbn [foldl]. rewrite IH, filter_cons.
  case_decide; [|done]. rewrite last_cons.
  by destruct (last (filter _ ns)).
Qed.

Lemma check_length_one {A : Type} (l : list A) :
  check (length l =? 1) = Ok tt -> exists x, l = [x].
Proof.
  destruct l as [|x [|y l]]; try discriminate. eauto.
Qed.

Lemma check_length_not_one {A : Type} (l : list A) :
  length l <> 1 -> check (length l =? 1) = Raise AssertionError.
Proof. intros H. unfold check. by rewrite (proj2 (Nat.eqb_neq _ _) H). Qed.

Lemma xpath_page_titled_plain env title tree :
  PyStr.free_of [dquote] title = true ->
  xpath_page_titled env title tree
  = Ok (Xml.xpath_attr "page" "title" title tree).
Proof. unfold xpath_page_titled. by intros ->. Qed.

(** The resolver on an answer whose decisive mapping node leads to the
    title [t]: an assertion fails unless one page node carries [t]. *)
Lemma image_url_pages env q tree t :
  response_title_of q (Xml.xpath_child "normalized" "n" tree) = Some t ->
  PyStr.free_of [dquote] t = true ->
  length (Xml.xpath_attr "page" "title" t tree) <> 1 ->
  image_url_of_response env q tree = Raise AssertionError.
Proof.
  intros Ht Hq Hn. unfold image_url_of_response.
  rewrite Ht. cbn [str_of]. rewrite xpath_page_titled_plain by done.
  cbn [rbind]. by rewrite check_length_not_one.
Qed.

(** An assertion fails as well unless the answer holds one [ii] node. *)
Lemma image_url_ii env q tree :
  length (Xml.xpath_all "ii" tree) <> 1 ->
  raises (image_url_of_response env q tree) = true.
Proof.
  intros Hn. unfold image_url_of_response.
  destruct (xpath_page_titled env _ tree) as [pages|]; [|done].
  cbn [rbind]. destruct (check (length pages =? 1)); [|done].
  cbn [rbind]. destruct (first_item pages); [|done].
  cbn [rbind]. by rewrite check_length_not_one.
Qed.

(** With one page under the title and one [ii] node in the answer, the
    resolver returns the [url] of that node. *)
Lemma image_url_found env q tree t page i :
  response_title_of q (Xml.xpath_child "normalized" "n" tree) = Some t ->
  PyStr.free_of [dquote] t = true ->
  Xml.xpath_attr "page" "title" t tree = [page] ->
  Xml.xpath_all "ii" tree = [i] ->
  image_url_of_response env q tree = Ok (Xml.get i "url").
Proof.
  intros Ht Hq Hp Hi. unfold image_url_of_response.
  rewrite Ht. cbn [str_of]. rewrite xpath_page_titled_plain by done.
  cbn [rbind]. by rewrite Hp, Hi.
Qed.

(** Under a page of the document with its one [ii] node, an answer with
    one [ii] node has that node. *)
Lemma only_ii_is_below tree page i :
  page ∈ Xml.iter tree ->
  Xml.xpath_below "ii" page = [i] ->
  length (Xml.xpath_all "ii" tree) = 1 ->
  Xml.xpath_all "ii" tree = [i].
Proof.
  intros Hp Hi Hn.
  pose proof (xpath_below_sublist "ii" tree page Hp) as Hs.
  rewrite Hi in Hs.
  destruct (Xml.xpath_all "ii" tree) as [|j [|??]]; try discriminate.
  apply sublist_cons_l in Hs as (k1 & k2 & Hk & _).
  destruct k1 as [|? [|]]; simplify_eq/=. done.
Qed.

(** The reader returns the text of the last [rev] node of the answer, and
    fails when the answer has none. *)
Lemma article_of_response_none tree :
  Xml.xpath_all "rev" tree = [] ->
  article_of_response tree = Raise IndexError.
Proof. unfold article_of_response. by intros ->. Qed.

Lemma article_of_response_last tree revs rev :
  Xml.xpath_all "rev" tree = revs ++ [rev] ->
  article_of_response tree = Ok (Xml.text rev).
Proof.
  unfold article_of_response, last_item. intros ->. by rewrite last_snoc.
Qed.


(** * Facts on templates and on [strip] *)

Lemma find_app_none {A : Type} (f : A -> bool) l1 l2 :
  forallb (fun x => negb (f x)) l1 = true ->
  find f (l1 ++ l2) = find f l2.
Proof.
  induction l1 as [|x l1 IH]; [done|]. cbn [forallb app find].
  intros [Hx Hl]%andb_true_iff. apply negb_true_iff in Hx. rewrite Hx. auto.
Qed.

Lemma forallb_rev {A : Type} (f : A -> bool) l :
  forallb f (rev l) = forallb f l.
Proof.
  induction l as [|x l IH]; [done|]. cbn [rev forallb].
  rewrite forallb_app, IH. cbn [forallb]. destruct (f x), (forallb f l); done.
Qed.

(** [Template.get] returns the last parameter of the name. *)
Lemma template_get_last t key before p after :
  Wikicode.params t = before ++ p :: after ->
  PyStr.strip (Wikicode.pname p) = key ->
  forallb (fun q => negb (String.eqb (PyStr.strip (Wikicode.pname q)) key))
    after = true ->
  Wikicode.get t key = Ok p.
Proof.
  intros Hp Hk Ha. unfold Wikicode.get. rewrite Hp, rev_app_distr.
  cbn [rev]. rewrite <- List.app_assoc, find_app_none.
  - cbn [app find]. by rewrite Hk, String.eqb_refl.
  - by rewrite forallb_rev.
Qed.

Lemma template_get_missing t key :
  forallb (fun q => negb (String.eqb (PyStr.strip (Wikicode.pname q)) key))
    (Wikicode.params t) = true ->
  Wikicode.get t key = Raise (ValueError key).
Proof.
  intros Ha. unfold Wikicode.get.
  rewrite <- (List.app_nil_r (rev _)), find_app_none; [done|].
  by rewrite forallb_rev.
Qed.

Lemma image_name_not_one templates :
  length (List.filter is_infobox templates) <> 1 ->
  image_name_of_templates templates = Raise AssertionError.
Proof.
  intros H. unfold image_name_of_templates. by rewrite check_length_not_one.
Qed.

Lemma image_name_one templates t :
  List.filter is_infobox templates = [t] ->
  image_name_of_templates templates
  = match Wikicode.get t "image" with
    | Ok p => Ok (PyStr.strip (Wikicode.pvalue p))
    | Raise e => Raise e
    end.
Proof. intros H. unfold image_name_of_templates. by rewrite H. Qed.

(** [strip] leaves no white space at either end. *)
Lemma lstrip_by_head p s c r :
  PyStr.lstrip_by p s = String c r -> p c = false.
Proof.
  induction s as [|d s IH]; [done|]. cbn [PyStr.lstrip_by].
  destruct (p d) eqn:E; [done|]. by intros [= <- _].
Qed.

Lemma rstrip_by_head p s c r :
  PyStr.rstrip_by p s = String c r -> exists r', s = String c r'.
Proof.
  destruct s as [|d s]; [done|]. cbn [PyStr.rstrip_by].
  destruct (PyStr.rstrip_by p s); [destruct (p d)|]; intros [= <- _]; eauto.
Qed.

Lemma rstrip_by_last p s r c :
  PyStr.rstrip_by p s = r +:+ String c EmptyString -> p c = false.
Proof.
  revert r. induction s as [|d s IH]; intros r.
  - by destruct r.
  - cbn [PyStr.rstrip_by].
    destruct (PyStr.rstrip_by p s) as [|e s'] eqn:E.
    + destruct (p d) eqn:Ed; [by destruct r|].
      destruct r as [|? [|]]; [|done..]. by intros [= <-].
    + destruct r as [|x r]; [done|]. rewrite str_app_cons.
      intros [= _ H]. by eapply IH.
Qed.

Lemma strip_head s c r : PyStr.strip s = String c r -> PyStr.isspace c = false.
Proof.
  unfold PyStr.strip. intros (r' & H)%rstrip_by_head.
  by eapply lstrip_by_head.
Qed.

Lemma strip_last s r c :
  PyStr.strip s = r +:+ String c EmptyString -> PyStr.isspace c = false.
Proof. apply rstrip_by_last. Qed.


Lemma lstrip_by_split p s :
  exists k, s = k +:+ PyStr.lstrip_by p s /\ PyStr.all_chars p k = true.
Proof.
  induction s as [|c s (k & Hk & Hp)]; [by exists EmptyString|].
  cbn [PyStr.lstrip_by]. destruct (p c) eqn:E.
  - exists (String c k). rewrite str_app_cons, <- Hk. cbn. by rewrite E, Hp.
  - by exists EmptyString.
Qed.

Lemma members_of_cite c :
  wf_citation c = true ->
  members_of_section (cite c) = [as_member (tuple_of c)].
Proof.
  intros H. unfold members_of_section, Re.findall.
  rewrite <- (str_app_nil_r (cite c)), findall_cite by done. done.
Qed.



(** * Facts on the traces that touch no file *)

Lemma replay_app (fs : gmap string string) t1 t2 :
  replay fs (t1 ++ t2) = replay (replay fs t1) t2.
Proof. apply foldl_app. Qed.

Lemma requests_app t1 t2 : requests (t1 ++ t2) = requests t1 ++ requests t2.
Proof. apply omap_app. Qed.

Lemma idle_requests t : Forall idle t -> requests t = [].
Proof. induction 1 as [|[| | |? []| |] t He _ IH]; done. Qed.

Lemma idle_replay fs t : Forall idle t -> replay fs t = fs.
Proof.
  intros H. revert fs.
  induction H as [|e t He _ IH]; intros fs; [done|].
  change (replay fs (e :: t)) with (replay (apply_event fs e) t).
  rewrite IH. by destruct e as [| | |? []| |].
Qed.

Lemma idle_written name t : Forall idle t -> written name t = EmptyString.
Proof. induction 1 as [|[| | |? []| |] t He _ IH]; done. Qed.

(** What a turn does after its [try] statement touches no file. *)
Lemma outcome_events_idle env m : Forall idle (outcome_events env m).
Proof.
  unfold outcome_events. destruct (stdout_error env _); [constructor|].
  destruct (snd (member_pipeline env m)); by repeat constructor.
Qed.

Lemma outcome_events_not_opened env m :
  Forall (fun e => opened e = None) (outcome_events env m).
Proof.
  unfold outcome_events. destruct (stdout_error env _); [constructor|].
  destruct (snd (member_pipeline env m)); by repeat constructor.
Qed.

(** * Facts on the standard output *)

Lemma print_unfold env s :
  print env s
  = match stdout_error env s with
    | Some e => ([], Raise e)
    | None =>
        match stdout_error env LF with
        | Some e => ([EvStdout s], Raise e)
        | None => ([EvStdout s; EvStdout LF], Ok tt)
        end
    end.
Proof.
  unfold print. rewrite !stdout_write_unfold.
  destruct (stdout_error env s); [done|]. cbn [bind].
  by destruct (stdout_error env LF).
Qed.




(** [main] is its two calls of [current_members] and the rest. *)
Lemma main_unfold env t1 senators t2 representatives :
  current_members env SENATE_PAGE_NAME SENATE_SECTION_NAME = (t1, Ok senators) ->
  current_members env HOUSE_PAGE_NAME HOUSE_SECTION_NAME
  = (t2, Ok representatives) ->
  main env
  = (t1 ++ t2 ++ fst (run_of_rosters env senators representatives),
     snd (run_of_rosters env senators representatives)).
Proof.
  intros H1 H2. unfold main. rewrite H1. cbn [bind]. rewrite H2. cbn [bind].
  fold (loading_text senators representatives).
  change (bind (print env (loading_text senators representatives)) _)
    with (run_of_rosters env senators representatives).
  destruct (run_of_rosters env senators representatives) as [t r].
  cbn [fst snd]. by rewrite (assoc_L (++)).
Qed.

(** The run from line 57 on: each of its writes to the standard output
    may end it. *)
Lemma run_of_rosters_unfold env senators representatives :
  let members := senators ++ representatives in
  let loading := loading_text senators representatives in
  let report :=
    report_text (failure_name <$> List.filter (pipeline_raises env) members) in
  run_of_rosters env senators representatives
  = match stdout_error env loading with
    | Some e => ([], Raise e)
    | None =>
        match stdout_error env LF with
        | Some e => ([EvStdout loading], Raise e)
        | None =>
            match loop_error env members with
            | Some e =>
                ([EvStdout loading; EvStdout LF]
                   ++ fst (main_loop env [] members), Raise e)
            | None =>
                match stdout_error env report with
                | Some e =>
                    ([EvStdout loading; EvStdout LF]
                       ++ fst (main_loop env [] members), Raise e)
                | None =>
                    ([EvStdout loading; EvStdout LF]
                       ++ fst (main_loop env [] members)
                       ++ [EvStdout report; EvStdout LF], Ok tt)
                end
            end
        end
    end.
Proof.
  intros members loading report. unfold run_of_rosters. fold members loading.
  rewrite print_unfold. destruct (stdout_error env loading); [done|].
  destruct (stdout_error env LF) eqn:HLF; [done|]. cbn [bind].
  pose proof (main_loop_result env [] members) as Hr.
  destruct (main_loop env [] members) as [tl rl]. cbn [fst snd] in *. subst rl.
  destruct (loop_error env members); [done|]. cbn [bind].
  subst report. rewrite print_unfold, HLF.
  destruct (stdout_error env (report_text _)); cbn [app];
    by rewrite ?(right_id_L [] (++)).
Qed.



(** ** The properties of the program *)




(** A roster that cannot be read ends the run: the exception of
    [current_members] leaves [main]. *)
Lemma main_raises_with_the_rosters env :
  (forall t e,
     current_members env SENATE_PAGE_NAME SENATE_SECTION_NAME = (t, Raise e) ->
     main env = (t, Raise e))
  /\ (forall t1 senators t2 e,
        current_members env SENATE_PAGE_NAME SENATE_SECTION_NAME
        = (t1, Ok senators) ->
        current_members env HOUSE_PAGE_NAME HOUSE_SECTION_NAME = (t2, Raise e) ->
        main env = (t1 ++ t2, Raise e)).
Proof.
  split.
  - intros t e H. unfold main. by rewrite H.
  - intros t1 senators t2 e H1 H2. unfold main. rewrite H1. cbn [bind].
    by rewrite H2.
Qed.



(** Nor is it enough that the rosters are read: the progress text of a
    member is written outside the [try] statement, and on a standard
    output whose encoding is ASCII the name of a member with a letter
    beyond ASCII ends the run with exit status 1, after the rosters were
    read and before any file is opened. *)
Lemma run_fails_on_an_ascii_output :
  snd (current_members Sample.env_ascii SENATE_PAGE_NAME SENATE_SECTION_NAME)
  = Ok [Sample.jose]
  /\ snd (current_members Sample.env_ascii HOUSE_PAGE_NAME HOUSE_SECTION_NAME)
     = Ok [Sample.jose]
  /\ snd (main Sample.env_ascii) = Raise (ExternalError "UnicodeEncodeError")
  /\ exit_status (snd (main Sample.env_ascii)) = 1
  /\ omap opened (fst (main Sample.env_ascii)) = [].
Proof. repeat split; vm_compute; reflexivity. Qed.

(** C9, as amended.  In a turn of the loop that starts (the progress
    text is written), the output file
    [us_congress_portrait_<lastname>_<firstname>.jpg] is the first thing
    asked for, before any request of the pipeline is issued, and [open] is
    called once.  When the [open] succeeds the file is empty from then
    on, whatever it held before; when the pipeline then raises, the file
    stays on disk and holds what the download wrote before the failure,
    nothing or the chunks copied, and nothing of its earlier content.
    When the [open] fails, the pipeline raises at once: no request is
    issued, no file is created and every file is left as it was. *)
Theorem output_file_is_opened_before_any_request (env : Env)
    (failures : list string) (m : member) :
  let name := img_file_name m in
  let t := fst (main_body env failures m) in
  stdout_error env (failure_name m +:+ "...") = None ->
  (exists t',
     t = EvStdout (failure_name m +:+ "...")
           :: EvOpen name (open_ok env name) :: t'
     /\ Forall (fun e => opened e = None) t')
  /\ (forall t1 url t2,
        t = t1 ++ EvRequest url :: t2 ->
        EvOpen name (open_ok env name) ∈ t1)
  /\ (open_ok env name = true ->
      forall fs : gmap string string,
        replay fs [EvStdout (failure_name m +:+ "..."); EvOpen name true]
          !! name = Some EmptyString)
  /\ (open_ok env name = true ->
      pipeline_raises env m = true ->
      forall fs : gmap string string,
        replay fs t !! name = Some (written name t)
        /\ (written name t = EmptyString
            \/ exists url r,
                 image_get env url = Ok r
                 /\ written name t
                    = String.concat EmptyString (copied (raw_chunks r))))
  /\ (open_ok env name = false ->
      pipeline_raises env m = true
      /\ requests t = []
      /\ forall fs : gmap string string, replay fs t = fs).
Proof.
  intros name t Hstart. subst t.
  rewrite main_body_trace, Hstart.
  pose proof (outcome_events_idle env m) as Hidle.
  pose proof (outcome_events_not_opened env m) as Hnop.
  unfold pipeline_raises. rewrite member_pipeline_unfold. fold name.
  pose proof (download_quiet env (article_title m) name) as Hq.
  pose proof (download_written env (article_title m) name) as Hw.
  set (d := download_congress_portrait env (article_title m) name) in *.
  set (o := outcome_events env m) in *.
  unfold trace_all in Hq.
  assert (Forall (fun e => opened e = None) (fst d)) as Hd.
  { eapply Forall_impl; [exact Hq|]. apply quiet_not_opened. }
  assert (forall (t : list event) t1 url t2,
            EvStdout (failure_name m +:+ "...")
              :: EvOpen name (open_ok env name) :: t
            = t1 ++ EvRequest url :: t2 ->
            EvOpen name (open_ok env name) ∈ t1) as Hfirst.
  { intros t [|a [|b t1]] url t2 Ht; simplify_eq/=. right. left. }
  destruct (open_ok env name) eqn:Hopen; cbn [fst snd].
  - split; [|split; [|split; [|split]]]; [| | | |done].
    + eexists. split; [reflexivity|].
      rewrite !Forall_app. by repeat constructor.
    + apply Hfirst.
    + intros _ fs. cbn. apply lookup_insert_eq.
    + intros _ Hr fs.
      set (rest := (fst d ++ [EvClose name]) ++ o).
      assert (written name rest = written name (fst d)) as Hrest.
      { unfold rest. rewrite !written_app. cbn [written].
        by rewrite (idle_written name o Hidle), !str_app_nil_r. }
      assert (Forall (fun e => opened e = None) rest) as Hno.
      { unfold rest. rewrite !Forall_app. by repeat constructor. }
      change (EvStdout (failure_name m +:+ "...")
                :: (EvOpen name true :: fst d ++ [EvClose name]) ++ o)
        with (EvStdout (failure_name m +:+ "...") :: EvOpen name true :: rest).
      cbn [written]. rewrite Hrest. split; [|exact Hw].
      change (replay fs (?a :: ?b :: rest))
        with (replay (apply_event (apply_event fs a) b) rest).
      cbn [apply_event].
      rewrite (replay_written name rest Hno _ EmptyString), Hrest; [done|].
      apply lookup_insert_eq.
  - assert (Forall idle
              (EvStdout (failure_name m +:+ "...")
                 :: [EvOpen name false] ++ o)) as Hall.
    { constructor; [done|]. constructor; done. }
    split; [|split; [|split; [|split]]]; [| |done..|].
    + eexists. split; [reflexivity|]. done.
    + apply Hfirst.
    + intros _. split; [done|]. split; [by apply idle_requests|].
      intros fs. by apply idle_replay.
Qed.

Lemma output_file_is_opened_before_any_request_witness :
  replay {[ "us_congress_portrait_roe_john.jpg" := "an older portrait" ]}
    (fst (main_body Sample.env_cut [] Sample.john))
    !! "us_congress_portrait_roe_john.jpg" = Some "JFIF"
  /\ replay {[ "us_congress_portrait_doe_jane.jpg" := "an older portrait" ]}
       (fst (main_body (read_only Sample.env) [] Sample.jane))
     = {[ "us_congress_portrait_doe_jane.jpg" := "an older portrait" ]}.
Proof.
  split.
  - destruct (output_file_is_opened_before_any_request Sample.env_cut []
                Sample.john eq_refl) as (_ & _ & _ & H & _).
    destruct (H eq_refl eq_refl
                {[ "us_congress_portrait_roe_john.jpg" := "an older portrait" ]})
      as [H' _].
    etrans; [exact H'|]. vm_compute. reflexivity.
  - destruct (output_file_is_opened_before_any_request (read_only Sample.env)
                [] Sample.jane eq_refl) as (_ & _ & _ & _ & H).
    destruct (H eq_refl) as (_ & _ & H'). apply H'.
Defined.

(** C9 as stated, for every member, fails: the [open] stands inside the
    [try] statement and may fail.  The pipeline then raises without a file
    under the name of the member being created or emptied: an older file
    of that name is left with its content. *)
Lemma failed_open_leaves_the_older_file :
  ~ (forall (env : Env) failures m (fs : gmap string string),
       pipeline_raises env m = true ->
       replay fs (fst (main_body env failures m)) !! img_file_name m
       = Some (written (img_file_name m) (fst (main_body env failures m)))).
Proof.
  intros H.
  specialize (H (read_only Sample.env) [] Sample.jane
                {[ "us_congress_portrait_doe_jane.jpg" := "an older portrait" ]}
                eq_refl).
  vm_compute in H. discriminate.
Qed.


(** C2, at the failing input.  The answer holds one page node under the
    title, and no [ii] node under that page; the resolver does not fail:
    [page.xpath('//ii')] selects the [ii] nodes of the whole answer, finds
    the one of another page, and its URL is returned. *)
Theorem image_info_is_counted_in_the_whole_answer (env : Env) :
  let tree := Sample.stray_imageinfo in
  let page := Sample.page "File:Jane Doe.jpg" [] in
  Xml.xpath_attr "page" "title" "File:Jane Doe.jpg" tree = [page]
  /\ length (Xml.xpath_below "ii" page) = 0
  /\ image_url_of_response env "File:Jane Doe.jpg" tree
     = Ok (Some "http://upload.example.org/Other.jpg").
Proof. intros tree page. split; [|split]; vm_compute; reflexivity. Qed.

(** The reader and the resolver are their bodies applied to the answer. *)
Lemma wiki_query_article_answer env title tree :
  api_get env (api_url (article_params title)) = Ok tree ->
  snd (wiki_query_article env title) = article_of_response tree.
Proof.
  intros H. unfold wiki_query_article, wiki_query.
  cbn [bind emit lift]. rewrite H. by destruct (article_of_response tree).
Qed.

Lemma wiki_query_image_url_answer env file_name tree :
  api_get env (api_url (imageinfo_params ("File:" +:+ file_name))) = Ok tree ->
  snd (wiki_query_image_url env file_name)
  = image_url_of_response env ("File:" +:+ file_name) tree.
Proof.
  intros H. unfold wiki_query_image_url, wiki_query.
  cbn [bind emit lift]. rewrite H. by destruct (image_url_of_response _ _ _).
Qed.

(** C3, at the failing input.  The requested title does not resolve: its
    page node holds no revision.  The reader does not fail: [//rev]
    selects the revisions of the whole answer, and the text of the
    sentinel page [API] is returned as the text of the article. *)
Theorem unresolved_title_yields_the_sentinel_text :
  let tree := Sample.unresolved_article in
  let page := Sample.page Sample.unresolved_title [] in
  Xml.xpath_attr "page" "title" Sample.unresolved_title tree = [page]
  /\ Xml.xpath_below "rev" page = []
  /\ article_of_response tree
     = Ok (Some "An API is an interface between programs.").
Proof. intros tree page. split; [|split]; vm_compute; reflexivity. Qed.

(** C5, as amended.  When the number of templates whose trimmed,
    lower-cased name is one of the five infobox names is not one, the
    resolver fails on its assertion.  When there is exactly one and it has
    a parameter named [image] (trimmed), the resolver returns the value of
    the last such parameter, with no white space left at either end; when
    it has none, [Template.get] raises [ValueError]. *)
Theorem infobox_image_name_of_unique_infobox
    (templates : list Wikicode.template) :
  (length (List.filter is_infobox templates) <> 1 ->
   image_name_of_templates templates = Raise AssertionError)
  /\ (forall t before p after,
        List.filter is_infobox templates = [t] ->
        Wikicode.params t = before ++ p :: after ->
        PyStr.strip (Wikicode.pname p) = "image" ->
        forallb (fun q => negb (String.eqb (PyStr.strip (Wikicode.pname q))
                                  "image")) after = true ->
        image_name_of_templates templates
        = Ok (PyStr.strip (Wikicode.pvalue p))
        /\ (forall c r, PyStr.strip (Wikicode.pvalue p) = String c r ->
                        PyStr.isspace c = false)
        /\ (forall r c, PyStr.strip (Wikicode.pvalue p)
                        = r +:+ String c EmptyString ->
                        PyStr.isspace c = false))
  /\ (forall t,
        List.filter is_infobox templates = [t] ->
        forallb (fun q => negb (String.eqb (PyStr.strip (Wikicode.pname q))
                                  "image")) (Wikicode.params t) = true ->
        image_name_of_templates templates = Raise (ValueError "image"))
  /\ (forall (env : Env) (page_text : option string),
        wiki_read_officeholder_image_name env page_text
        = image_name_of_templates (filter_templates env page_text)).
Proof.
  split; [apply image_name_not_one|]. split; [|split; [|done]].
  - intros t before p after Ht Hp Hn Ha. split; [|split].
    + rewrite (image_name_one _ _ Ht).
      by rewrite (template_get_last t "image" before p after).
    + apply strip_head.
    + apply strip_last.
  - intros t Ht Hn. rewrite (image_name_one _ _ Ht).
    by rewrite template_get_missing.
Qed.

Lemma infobox_image_name_of_unique_infobox_witness :
  image_name_of_templates
    [Wikicode.MkTemplate "cite web" []; Sample.infobox_with_image]
  = Ok "Jane_Doe.jpg"
  /\ image_name_of_templates
       [Sample.infobox_with_image; Sample.infobox_with_image]
     = Raise AssertionError.
Proof.
  split.
  - destruct (infobox_image_name_of_unique_infobox
                [Wikicode.MkTemplate "cite web" []; Sample.infobox_with_image])
      as (_ & H & _).
    destruct (H Sample.infobox_with_image
                [Wikicode.MkParam " name " " Jane Doe
"]
                (Wikicode.MkParam " image " " Jane_Doe.jpg
") []) as (H1 & _); [vm_compute; reflexivity..|].
    rewrite H1. vm_compute. reflexivity.
  - destruct (infobox_image_name_of_unique_infobox
                [Sample.infobox_with_image; Sample.infobox_with_image])
      as (H & _).
    apply H. vm_compute. discriminate.
Defined.

(** C5 as stated fails in its second half: with exactly one infobox, the
    resolver returns no value when the infobox has no [image] field. *)
Lemma infobox_without_image_raises :
  ~ (forall templates t,
       List.filter is_infobox templates = [t] ->
       exists v, image_name_of_templates templates = Ok v).
Proof.
  intros H.
  destruct (H [Sample.infobox_without_image] Sample.infobox_without_image)
    as [v Hv]; [vm_compute; reflexivity|].
  vm_compute in Hv. discriminate.
Qed.


Lemma str_app_nil_l s : EmptyString +:+ s = s.
Proof. reflexivity. Qed.

Lemma free_of_cons chars c s :
  PyStr.free_of chars (String c s)
  = negb (existsb (Ascii.eqb c) chars) && PyStr.free_of chars s.
Proof. reflexivity. Qed.

(** A literal that ends with [q] does not begin a text that has, before
    any [q], a character foreign to the literal. *)
Lemma strip_prefix_blocked p0 q f c t :
  PyStr.free_of [q] f = true ->
  PyStr.free_of [c] (p0 +:+ String q EmptyString) = true ->
  Re.strip_prefix (p0 +:+ String q EmptyString) (f +:+ String c t) = None.
Proof.
  revert p0. induction f as [|x f IH]; intros p0 Hf Hp.
  - rewrite str_app_nil_l.
    destruct p0 as [|y p0]; rewrite ?str_app_cons, ?str_app_nil_l in *;
      rewrite free_of_cons in Hp; apply andb_true_iff in Hp as [Hp _];
      cbn [Re.strip_prefix]; revert Hp; char_cases.
  - rewrite free_of_cons in Hf. apply andb_true_iff in Hf as [Hx Hf].
    destruct p0 as [|y p0]; rewrite ?str_app_cons, ?str_app_nil_l in *;
      cbn [Re.strip_prefix].
    + rewrite Ascii.eqb_sym. revert Hx. char_cases.
    + destruct (Ascii.eqb y x); [|done]. apply IH; [done|].
      rewrite free_of_cons in Hp. by apply andb_true_iff in Hp as [_ Hp].
Qed.

Lemma no_pipe_on_line_app f s :
  PyStr.free_of ["|"; Re.newline]%char f = true ->
  no_pipe_on_line (f +:+ s) = no_pipe_on_line s.
Proof.
  induction f as [|x f IH]; [done|].
  rewrite free_of_cons. intros [Hx Hf]%andb_true_iff.
  rewrite str_app_cons. cbn [no_pipe_on_line]. revert Hx. char_cases. auto.
Qed.

Lemma inert_cons c sep following :
  inert (String c sep) following
  = dead_start (String c (sep +:+ following)) && inert sep following.
Proof. reflexivity. Qed.

(** A citation without its second argument, with no [|] after it on its
    line, is a separator in which no match begins. *)
Lemma inert_one_argument f following :
  PyStr.free_of ["|"; Re.newline]%char f = true ->
  no_pipe_on_line following = true ->
  inert (OPENING +:+ f +:+ "}}") following = true.
Proof.
  intros Hf Hline. unfold OPENING.
  assert (inert (f +:+ "}}") following = true) as Hrest.
  { assert (PyStr.free_of ["|"%char] f = true) as Hp.
    { revert Hf. apply all_chars_impl. intros c. char_cases. }
    clear Hf. induction f as [|x f IH].
    - rewrite str_app_nil_l, !inert_cons. reflexivity.
    - rewrite str_app_cons, inert_cons.
      rewrite IH, andb_true_r.
      2:{ rewrite free_of_cons in Hp. by apply andb_true_iff in Hp as [_ Hp]. }
      unfold dead_start. rewrite (str_app_assoc f), <- (str_app_cons x f).
      change ("}}" +:+ following) with (String "}"%char (String "}" following)).
      by rewrite (strip_prefix_blocked "{{sortname" "|"%char). }
  repeat (rewrite str_app_cons, inert_cons;
          apply andb_true_iff; split; [|]);
    try reflexivity; [|exact Hrest].
  unfold dead_start. rewrite <- !str_app_cons, !str_app_assoc.
  rewrite (strip_prefix_app "{{sortname|").
  rewrite no_pipe_on_line_app by done. exact Hline.
Qed.

Lemma one_argument_citation_skipped f following :
  PyStr.free_of ["|"; Re.newline]%char f = true ->
  no_pipe_on_line following = true ->
  members_of_section ((OPENING +:+ f +:+ "}}") +:+ following)
  = members_of_section following.
Proof.
  intros Hf Hline. unfold members_of_section, Re.findall.
  by rewrite findall_from_inert by by apply inert_one_argument.
Qed.

(** C6, as amended.  For a section text made of N citations with two or
    three arguments (no [|] and no line break in the first name, neither
    these nor [}] in the last name, no [}] and no line break in the article
    name), each behind a separator in which no match can begin (wherever
    the opening [{{sortname|] stands in a separator, no [|] follows it on
    its line), the extractor returns exactly the N triples of the
    citations, in the order of the text, duplicates kept.  A citation
    without its second argument is such a separator, and contributes no
    triple, when no [|] follows it on its line. *)
Theorem roster_of_well_formed_section
    (segs : list (string * citation)) (tail : string) :
  forallb wf_citation (snd <$> segs) = true ->
  separators_inert segs tail = true ->
  members_of_section (render segs tail)
  = (fun c => as_member (tuple_of c)) <$> (snd <$> segs)
  /\ length (members_of_section (render segs tail)) = length segs
  /\ (forall f following,
        PyStr.free_of ["|"; Re.newline]%char f = true ->
        no_pipe_on_line following = true ->
        inert (OPENING +:+ f +:+ "}}") following = true
        /\ members_of_section ((OPENING +:+ f +:+ "}}") +:+ following)
           = members_of_section following).
Proof.
  intros Hwf Hin.
  assert (members_of_section (render segs tail)
          = (fun c => as_member (tuple_of c)) <$> (snd <$> segs)) as H.
  { unfold members_of_section. rewrite findall_render by done.
    by rewrite <- list_fmap_compose. }
  split; [exact H|]. split; [by rewrite H, !length_fmap|].
  intros f following Hf Hline.
  split; [by apply inert_one_argument|by apply one_argument_citation_skipped].
Qed.

Lemma roster_of_well_formed_section_witness :
  members_of_section
    ("{{sortname|Al}}
* {{sortname|Jane|Doe}} (D), {{sortname|John|Roe|John Roe (politician)}}
* {{sortname|Jane|Doe}} again")
  = [("Jane", "Doe", Some EmptyString); ("John", "Roe", Some "|John Roe (politician)");
     ("Jane", "Doe", Some EmptyString)].
Proof.
  destruct (roster_of_well_formed_section
              [("{{sortname|Al}}
* ", Citation "Jane" "Doe" None);
               (" (D), ", Citation "John" "Roe" (Some "John Roe (politician)"));
               ("
* ", Citation "Jane" "Doe" None)] " again") as [H _];
    [vm_compute; reflexivity..|].
  exact H.
Defined.

(** C6 as stated fails: a citation without its second argument is not
    skipped when a [|] follows on its line; with the text of the next
    template it makes a triple, here one triple from a text with no
    correctly formed citation. *)
Lemma malformed_citation_yields_a_triple :
  ~ (forall text : string,
       length (members_of_section text) = count_citations text).
Proof.
  intros H. specialize (H "{{sortname|Jane}} {{flag|US}}").
  vm_compute in H. discriminate.
Qed.

(** C7, as amended.  For the section text [{{sortname|Jane|Doe}}] the
    extractor yields exactly one triple, [("Jane", "Doe", "")], with the
    empty string as its third component; the loop of [main] derives from
    it the article title ["Jane Doe"] and the file name
    ["us_congress_portrait_doe_jane.jpg"]. *)
Theorem jane_doe_scenario :
  members_of_section "{{sortname|Jane|Doe}}" = [("Jane", "Doe", Some EmptyString)]
  /\ article_title ("Jane", "Doe", Some EmptyString) = "Jane Doe"
  /\ img_file_name ("Jane", "Doe", Some EmptyString) = "us_congress_portrait_doe_jane.jpg"
  /\ (forall (env : Env) (t : list event) (page_text : option string),
        wiki_query_article env SENATE_PAGE_NAME = (t, Ok page_text) ->
        get_sections env page_text "Senators" = ["{{sortname|Jane|Doe}}"] ->
        current_members env SENATE_PAGE_NAME SENATE_SECTION_NAME
        = (t, Ok [("Jane", "Doe", Some EmptyString)]))
  /\ (forall (env : Env),
        member_pipeline env ("Jane", "Doe", Some EmptyString)
        = with_open_wb env "us_congress_portrait_doe_jane.jpg"
            (download_congress_portrait env "Jane Doe"
               "us_congress_portrait_doe_jane.jpg")).
Proof.
  split; [vm_compute; reflexivity|].
  split; [vm_compute; reflexivity|].
  split; [vm_compute; reflexivity|].
  split; [|done].
  intros env t page_text H1 H2. unfold current_members.
  rewrite H1. cbn [bind]. unfold SENATE_SECTION_NAME. rewrite H2.
  cbn. by rewrite (right_id_L [] (++)).
Qed.

Lemma jane_doe_scenario_witness :
  snd (current_members Sample.env_jane SENATE_PAGE_NAME SENATE_SECTION_NAME)
  = Ok [("Jane", "Doe", Some EmptyString)].
Proof.
  destruct jane_doe_scenario as (_ & _ & _ & H & _).
  rewrite (H Sample.env_jane
             [EvRequest (Some (api_url (article_params SENATE_PAGE_NAME)))]
             (Some "{{sortname|Jane|Doe}}")); vm_compute; reflexivity.
Defined.

(** C7 as stated fails: the third component of the triple is the empty
    string, not [None]. *)
Lemma jane_doe_third_component_is_not_none :
  members_of_section "{{sortname|Jane|Doe}}" <> [("Jane", "Doe", None)].
Proof. vm_compute. discriminate. Qed.





(** Nor does it hold with one mapping node when the normalized title
    holds a double quote: the expression of line 164 is then not the one
    intended, and where the XPath engine rejects it (as [lxml] does for
    this title) the resolver raises [XPathEvalError], although the page
    under the normalized title is there and holds the one [ii] node. *)
Lemma double_quote_in_the_title_is_not_escaped :
  let t := Sample.quoted_title in
  let page := Sample.page t
                [Sample.imageinfo "http://upload.example.org/Jane_Doe.jpg"] in
  Xml.xpath_attr "page" "title" t Sample.normalized_quoted = [page]
  /\ length (Xml.xpath_below "ii" page) = 1
  /\ length (Xml.xpath_all "ii" Sample.normalized_quoted) = 1
  /\ image_url_of_response Sample.env "File:jane_Doe.jpg"
       Sample.normalized_quoted
     = Raise (ExternalError "XPathEvalError").
Proof. intros t page. repeat split; vm_compute; reflexivity. Qed.

(** C10, as amended.  In a section text made of correctly formed
    citations, each behind a separator in which no match can begin (the
    texts of C6), the triple of every citation, at the place of the
    citation in the text, has as its third component the empty string (a
    [str], not [None]) when the citation has two arguments, and its third
    argument behind the separator [|] when it has three; the article
    title that the loop of [main] derives is ["first last"] in the one
    case and the third argument without its leading [|] characters in the
    other.  In every triple of every text the third component is the empty
    string or begins with [|].  The loop of [main] strips all the leading
    [|] characters before it uses the component as the article title. *)
Theorem article_name_component_and_its_separator :
  (forall (segs : list (string * citation)) (tail : string) (i : nat)
          (c : citation),
     forallb wf_citation (snd <$> segs) = true ->
     separators_inert segs tail = true ->
     (snd <$> segs) !! i = Some c ->
     let third := match c_article c with
                  | None => EmptyString
                  | Some a => String "|"%char a
                  end in
     members_of_section (render segs tail) !! i
     = Some (c_first c, c_last c, Some third)
     /\ article_title (c_first c, c_last c, Some third)
        = match c_article c with
          | None => c_first c +:+ " " +:+ c_last c
          | Some a => PyStr.lstrip_pipe a
          end)
  /\ (forall text f l x,
        (f, l, x) ∈ members_of_section text ->
        x = Some EmptyString \/ exists a, x = Some (String "|"%char a))
  /\ (forall f l a,
        article_title (f, l, Some (String "|"%char a)) = PyStr.lstrip_pipe a
        /\ (forall r, PyStr.lstrip_pipe a <> String "|"%char r)
        /\ exists k,
             a = k +:+ PyStr.lstrip_pipe a
             /\ PyStr.all_chars (Ascii.eqb "|"%char) k = true).
Proof.
  assert (forall f l a,
            article_title (f, l, Some (String "|"%char a))
            = PyStr.lstrip_pipe a) as Htitle.
  { intros f l a. unfold article_title. cbn [PyStr.truthy str_of].
    unfold PyStr.lstrip_pipe. cbn [PyStr.lstrip_by].
    by rewrite Ascii.eqb_refl. }
  split; [|split].
  - intros segs tail i c Hwf Hin Hi third. split.
    + unfold members_of_section. rewrite findall_render by done.
      rewrite <- list_fmap_compose, list_lookup_fmap, Hi.
      unfold third. cbn [fmap option_fmap option_map compose].
      unfold as_member, tuple_of, article_suffix. cbn [nth].
      by destruct (c_article c).
    + unfold third. destruct (c_article c) as [a|]; [apply Htitle|done].
  - intros text f l x. unfold members_of_section.
    intros (g & Hg & Hin)%list_elem_of_fmap.
    apply findall_from_shape in Hin as (f' & l' & a & -> & Ha).
    unfold as_member in Hg. cbn in Hg. injection Hg as -> -> ->.
    destruct Ha as [->|[t ->]]; eauto.
  - intros f l a. split; [apply Htitle|split].
    + intros r Hr. apply lstrip_by_head in Hr.
      by rewrite Ascii.eqb_refl in Hr.
    + apply lstrip_by_split.
Qed.

Lemma article_name_component_and_its_separator_witness :
  members_of_section
    ("{{sortname|Al}}
* {{sortname|Jane|Doe}} (D), {{sortname|John|Roe|John Roe (politician)}}
* {{sortname|Ann|Lee||Ann Lee}} again") !! 2
  = Some ("Ann", "Lee", Some "||Ann Lee")
  /\ article_title ("Ann", "Lee", Some "||Ann Lee") = "Ann Lee".
Proof.
  destruct article_name_component_and_its_separator as (H & _).
  apply (H [("{{sortname|Al}}
* ", Citation "Jane" "Doe" None);
            (" (D), ", Citation "John" "Roe" (Some "John Roe (politician)"));
            ("
* ", Citation "Ann" "Lee" (Some "|Ann Lee"))] " again" 2
           (Citation "Ann" "Lee" (Some "|Ann Lee")));
    vm_compute; reflexivity.
Defined.

(** C10 as stated, for every citation with two arguments, fails: behind a
    citation without its second argument on the same line, the triple
    that holds the two arguments of [{{sortname|Jane|Doe}}] has [|Doe] as
    its third component, and no triple of the text is that of the
    citation. *)
Lemma two_argument_citation_behind_a_broken_one :
  ~ (forall (before after f l : string),
       wf_citation (Citation f l None) = true ->
       (f, l, Some EmptyString)
       ∈ members_of_section (before +:+ cite (Citation f l None) +:+ after)).
Proof.
  intros H.
  specialize (H "{{sortname|Al}} " EmptyString "Jane" "Doe" eq_refl).
  vm_compute in H.
  apply list_elem_of_singleton in H. discriminate.
Qed.


(** * Further properties of the program *)

(** * Facts on [quote] *)

Lemma all_chars_app p s t :
  PyStr.all_chars p (s +:+ t) = PyStr.all_chars p s && PyStr.all_chars p t.
Proof.
  induction s as [|c s IH]; [done|].
  rewrite str_app_cons. cbn [PyStr.all_chars]. by rewrite IH, andb_assoc.
Qed.

Lemma quote_cons c s : Urllib.quote (String c s) = quote_char c +:+ Urllib.quote s.
Proof. reflexivity. Qed.

Lemma quote_char_url c : PyStr.all_chars url_char (quote_char c) = true.
Proof. destruct c as [[] [] [] [] [] [] [] []]; vm_compute; reflexivity. Qed.

Lemma unquote_quote_char c rest :
  Unquote.char (quote_char c +:+ rest) = Some (c, rest).
Proof. destruct c as [[] [] [] [] [] [] [] []]; reflexivity. Qed.

Lemma url_char_plain c :
  url_char c = true ->
  negb (existsb (Ascii.eqb c) ["&"; "="; "|"; "#"; "?"; " "; Re.newline]%char)
  = true.
Proof. destruct c as [[] [] [] [] [] [] [] []]; vm_compute; done. Qed.

Lemma quote_url_chars s : PyStr.all_chars url_char (Urllib.quote s) = true.
Proof.
  induction s as [|c s IH]; [done|].
  by rewrite quote_cons, all_chars_app, quote_char_url, IH.
Qed.

Lemma quote_inj s1 s2 : Urllib.quote s1 = Urllib.quote s2 -> s1 = s2.
Proof.
  revert s2. induction s1 as [|c1 s1 IH]; intros [|c2 s2] H; [done|..].
  - apply (f_equal Unquote.char) in H.
    rewrite quote_cons, unquote_quote_char in H. discriminate.
  - apply (f_equal Unquote.char) in H.
    rewrite quote_cons, unquote_quote_char in H. discriminate.
  - apply (f_equal Unquote.char) in H.
    rewrite !quote_cons, !unquote_quote_char in H.
    injection H as -> H. f_equal. by apply IH.
Qed.

(** * Facts on the traces of the program *)

(** A property of traces that holds of the empty trace and of the
    concatenation of two traces that have it, holds of a sequence of
    computations that have it. *)
Lemma trace_closed_bind (P : list event -> Prop) {A B : Type}
    (m : M A) (k : A -> M B) :
  P [] -> (forall t1 t2, P t1 -> P t2 -> P (t1 ++ t2)) ->
  P (fst m) -> (forall a, P (fst (k a))) -> P (fst (bind m k)).
Proof.
  intros Hnil Happ Hm Hk. rewrite fst_bind. apply Happ; [done|].
  by destruct (snd m).
Qed.

Lemma protocol_app c t1 t2 :
  protocol c (t1 ++ t2)
  = match protocol c t1 with
    | Some c' => protocol c' t2
    | None => None
    end.
Proof.
  revert c. induction t1 as [|e t1 IH]; intros c; [done|].
  destruct e; cbn [app protocol]; try apply IH.
  - by destruct c.
  - by case_decide.
  - by case_decide.
Qed.

Lemma protocol_neutral c t :
  forallb neutral t = true -> protocol c t = Some c.
Proof.
  induction t as [|e t IH]; [done|]. cbn [forallb].
  intros [He Ht]%andb_true_iff. by destruct e; try discriminate; apply IH.
Qed.

Lemma protocol_feeds file t :
  Forall (feeds file) t -> protocol (Some file) t = Some (Some file).
Proof.
  induction 1 as [|e t He _ IH]; [done|].
  destruct e; try done; cbn [protocol]. cbn in He. subst.
  by rewrite decide_True.
Qed.

Lemma download_feeds env title file :
  trace_all (feeds file) (download_congress_portrait env title file).
Proof.
  unfold download_congress_portrait, wiki_query_article, wiki_query_image_url,
    wiki_query.
  repeat (first [ apply trace_all_bind | apply trace_all_lift
                | by apply trace_all_emit | intros ? ]).
  - unfold raise_for_status. case_match; constructor.
  - unfold copyfileobj, trace_all. rewrite copy_chunks_trace.
    apply Forall_fmap, Forall_true. done.
Qed.

Lemma member_pipeline_protocol env m :
  protocol None (fst (member_pipeline env m)) = Some None.
Proof.
  rewrite member_pipeline_unfold.
  destruct (open_ok env (img_file_name m)); cbn [fst protocol]; [|done].
  rewrite protocol_app, (protocol_feeds _ _ (download_feeds env _ _)).
  cbn [protocol]. by rewrite decide_True.
Qed.

Lemma outcome_events_neutral env m :
  forallb neutral (outcome_events env m) = true.
Proof.
  unfold outcome_events. destruct (stdout_error env _); [done|].
  by destruct (snd (member_pipeline env m)).
Qed.

Lemma print_neutral env s : forallb neutral (fst (print env s)) = true.
Proof.
  rewrite print_unfold. destruct (stdout_error env s); [done|].
  by destruct (stdout_error env LF).
Qed.

(** A turn of the loop keeps the discipline, wherever it ends. *)
Lemma main_body_protocol env failures m :
  protocol None (fst (main_body env failures m)) = Some None.
Proof.
  rewrite main_body_trace. destruct (stdout_error env _); [done|].
  cbn [protocol]. rewrite protocol_app, member_pipeline_protocol.
  apply protocol_neutral, outcome_events_neutral.
Qed.

Lemma main_loop_protocol env failures members :
  protocol None (fst (main_loop env failures members)) = Some None.
Proof.
  revert failures. induction members as [|m rest IH]; intros failures; [done|].
  rewrite main_loop_cons.
  destruct (turn_error env m); cbn [fst]; [apply main_body_protocol|].
  by rewrite protocol_app, main_body_protocol.
Qed.

Lemma wiki_query_article_neutral env title :
  forallb neutral (fst (wiki_query_article env title)) = true.
Proof.
  unfold wiki_query_article, wiki_query. rewrite !fst_bind.
  cbn [emit lift fst snd app]. rewrite ?forallb_app.
  by repeat case_match.
Qed.

Lemma current_members_neutral env page_name section_name :
  forallb neutral (fst (current_members env page_name section_name)) = true.
Proof.
  unfold current_members. rewrite fst_bind, forallb_app.
  rewrite wiki_query_article_neutral.
  destruct (snd (wiki_query_article env page_name)); [|done].
  unfold assert. rewrite !fst_bind. cbn [lift ret fst snd app].
  rewrite ?forallb_app. by repeat case_match.
Qed.

Lemma main_protocol env : protocol None (fst (main env)) = Some None.
Proof.
  assert (forall t1 t2,
            protocol None t1 = Some None -> protocol None t2 = Some None ->
            protocol None (t1 ++ t2) = Some None) as Happ.
  { intros t1 t2 H1 H2. by rewrite protocol_app, H1. }
  unfold main.
  apply (trace_closed_bind (fun t => protocol None t = Some None));
    [done|exact Happ| |intros senators].
  { apply protocol_neutral, current_members_neutral. }
  apply (trace_closed_bind (fun t => protocol None t = Some None));
    [done|exact Happ| |intros representatives].
  { apply protocol_neutral, current_members_neutral. }
  apply (trace_closed_bind (fun t => protocol None t = Some None));
    [done|exact Happ| |intros _].
  { apply protocol_neutral, print_neutral. }
  apply (trace_closed_bind (fun t => protocol None t = Some None));
    [done|exact Happ|apply main_loop_protocol|intros failures].
  apply protocol_neutral, print_neutral.
Qed.

(** * Facts on the file system after a trace *)

(** Two file systems that agree on the files of [A], the open file among
    them, agree after a trace on these files and on the files that the
    trace opens. *)
Lemma replay_agree t :
  forall (A : string -> Prop) cur c' (fs fs' : gmap string string),
    protocol cur t = Some c' ->
    (forall n, A n -> fs !! n = fs' !! n) ->
    (forall n, cur = Some n -> A n) ->
    forall n, A n \/ opens n t = true ->
              replay fs t !! n = replay fs' t !! n.
Proof.
  induction t as [|e t IH]; intros A cur c' fs fs' Hp Hag Hcur n Hn.
  - destruct Hn as [Hn|Hn]; [by apply Hag|done].
  - destruct e as [s|x|u|n0 ok|n0 d|n0]; cbn [protocol opens] in *;
      change (replay ?f (?e :: t)) with (replay (apply_event f e) t);
      cbn [apply_event]; try (by eapply IH).
    + destruct cur; [done|]. destruct ok.
      * apply (IH (fun n => A n \/ n = n0) (Some n0) c'); [done|..].
        -- intros n' [Hn'| ->]; [|by rewrite !lookup_insert_eq].
           destruct (decide (n0 = n')) as [->|Hne];
             [by rewrite !lookup_insert_eq|].
           rewrite !lookup_insert_ne by done. by apply Hag.
        -- intros n' [= <-]. by right.
        -- destruct Hn as [Hn|Hn]; [by left; left|].
           apply orb_true_iff in Hn as [Hn|Hn]; [|by right].
           apply bool_decide_eq_true in Hn as ->. left. by right.
      * by apply (IH A None c').
    + case_decide as Hc; [|done].
      apply (IH A cur c'); [done| |done..].
      intros n' Hn'. destruct (decide (n0 = n')) as [->|Hne].
      * rewrite !lookup_insert_eq. by rewrite (Hag n' Hn').
      * rewrite !lookup_insert_ne by done. by apply Hag.
    + case_decide as Hc; [|done]. by apply (IH A None c').
Qed.

(** A trace leaves alone the files that it does not open, the open one
    apart. *)
Lemma replay_untouched t :
  forall cur c' (fs : gmap string string) n,
    protocol cur t = Some c' ->
    cur <> Some n ->
    opens n t = false ->
    replay fs t !! n = fs !! n.
Proof.
  induction t as [|e t IH]; intros cur c' fs n Hp Hcur Hn; [done|].
  destruct e as [s|x|u|n0 ok|n0 d|n0]; cbn [protocol opens] in *;
    change (replay ?f (?e :: t)) with (replay (apply_event f e) t);
    cbn [apply_event]; try (by eapply IH).
  - destruct cur; [done|]. destruct ok.
    + apply orb_false_iff in Hn as [Hne%bool_decide_eq_false Hn].
      rewrite (IH (Some n0) c'); [|done|congruence|done].
      by rewrite lookup_insert_ne.
    + by apply (IH None c').
  - case_decide as Hc; [|done]. subst cur.
    rewrite (IH (Some n0) c') by done.
    rewrite lookup_insert_ne; [done|congruence].
  - case_decide as Hc; [|done]. by apply (IH None c').
Qed.

(** After a trace that keeps the discipline from no open file, a second
    run of the same trace changes nothing. *)
Lemma replay_twice t (fs : gmap string string) :
  protocol None t = Some None ->
  replay (replay fs t) t = replay fs t.
Proof.
  intros Hp. apply map_eq. intros n.
  destruct (opens n t) eqn:Ho.
  - apply (replay_agree t (fun _ => False) None None); [done..|by right].
  - by apply (replay_untouched t None None).
Qed.

Lemma opens_opened n t : opens n t = true -> n ∈ omap opened t.
Proof.
  induction t as [|e t IH]; [done|].
  destruct e as [s|x|u|n0 ok|n0 d|n0]; cbn [opens omap list_omap opened];
    try done.
  destruct ok.
  - intros [->%bool_decide_eq_true|H]%orb_true_iff; [left|right; auto].
  - intros H. right. auto.
Qed.

(** The loop over two rosters in a row: the second is reached when the
    standard output accepts the texts of the first. *)
Lemma main_loop_app env failures l1 l2 :
  fst (main_loop env failures (l1 ++ l2))
  = fst (main_loop env failures l1)
      ++ match loop_error env l1 with
         | Some _ => []
         | None =>
             fst (main_loop env
                    (failures
                       ++ (failure_name
                             <$> List.filter (pipeline_raises env) l1)) l2)
         end.
Proof.
  revert failures. induction l1 as [|m l1 IH]; intros failures.
  - cbn. by rewrite (right_id_L [] (++)).
  - cbn [app loop_error List.filter]. rewrite !main_loop_cons.
    destruct (turn_error env m); cbn [fst];
      [by rewrite (right_id_L [] (++))|].
    rewrite IH, <- !(assoc_L (++)). f_equal. f_equal.
    destruct (loop_error env l1); [done|]. unfold record.
    destruct (pipeline_raises env m); [|done].
    cbn [fmap list_fmap]. by rewrite <- !(assoc_L (++)).
Qed.

(** The file of a member after the turn of the loop for it. *)
Lemma member_pipeline_content env m (fs : gmap string string) :
  open_ok env (img_file_name m) = true ->
  replay fs (fst (member_pipeline env m)) !! img_file_name m
  = Some (written (img_file_name m) (fst (member_pipeline env m))).
Proof.
  intros Ho. rewrite member_pipeline_unfold, Ho. cbn [fst written].
  set (name := img_file_name m).
  set (d := fst (download_congress_portrait env (article_title m) name)).
  change (replay fs (?e :: ?t)) with (replay (apply_event fs e) t).
  cbn [apply_event].
  assert (Forall (fun e => opened e = None) (d ++ [EvClose name])) as Hd.
  { apply Forall_app. split; [|by repeat constructor].
    eapply Forall_impl; [apply (download_quiet env)|]. apply quiet_not_opened. }
  rewrite (replay_written name (d ++ [EvClose name]) Hd _ EmptyString); [done|].
  apply lookup_insert_eq.
Qed.

(** * The outcomes of a download *)

(** A download fails before the transfer and writes nothing, or reaches
    the transfer of an image response without an error status, writes the
    chunks before the first empty one, and ends without an exception at
    an empty chunk, or as the reading of the response ends. *)
Lemma download_cases env title file :
  let d := download_congress_portrait env title file in
  (written file (fst d) = EmptyString /\ raises (snd d) = true)
  \/ exists url r,
       image_get env url = Ok r
       /\ ((400 <=? status_code r) && (status_code r <? 600)) = false
       /\ written file (fst d)
          = String.concat EmptyString (copied (raw_chunks r))
       /\ snd d
          = if forallb (fun chunk => PyStr.truthy (Some chunk)) (raw_chunks r)
            then match raw_error r with
                 | Some e => Raise e
                 | None => Ok tt
                 end
            else Ok tt.
Proof.
  intros d. subst d. unfold download_congress_portrait.
  rewrite fst_bind, snd_bind, written_app,
    (written_requests _ _ (wiki_query_article_requests env title)).
  destruct (snd (wiki_query_article env title)) as [page_text|]; [|by left].
  rewrite fst_bind, snd_bind. cbn [lift fst snd app].
  destruct (wiki_read_officeholder_image_name env page_text)
    as [image_name|]; [|by left].
  rewrite fst_bind, snd_bind, written_app,
    (written_requests _ _ (wiki_query_image_url_requests env image_name)).
  destruct (snd (wiki_query_image_url env image_name)) as [image_url|];
    [|by left].
  rewrite fst_bind, snd_bind. cbn [emit fst snd app written].
  rewrite fst_bind, snd_bind. cbn [lift fst snd app].
  destruct (image_get env image_url) as [r|] eqn:Hr; [|by left].
  rewrite fst_bind, snd_bind. unfold raise_for_status.
  destruct (_ && _) eqn:Hs; [by left|]. cbn [ret fst snd app].
  unfold copyfileobj. rewrite copy_chunks_trace, copy_chunks_result.
  right. exists image_url, r. split; [done|]. split; [done|].
  split; [apply written_chunks|done].
Qed.

Lemma wiki_query_trace env kwargs :
  fst (wiki_query env kwargs) = [EvRequest (Some (api_url kwargs))].
Proof.
  unfold wiki_query. rewrite fst_bind. cbn [emit lift fst snd].
  by rewrite (right_id_L [] (++)).
Qed.

Lemma wiki_query_article_trace env title :
  fst (wiki_query_article env title)
  = [EvRequest (Some (api_url (article_params title)))].
Proof.
  unfold wiki_query_article. rewrite fst_bind, wiki_query_trace.
  cbn [lift fst]. by destruct (snd _).
Qed.

Lemma wiki_query_image_url_trace env file_name :
  fst (wiki_query_image_url env file_name)
  = [EvRequest (Some (api_url (imageinfo_params ("File:" +:+ file_name))))].
Proof.
  unfold wiki_query_image_url. rewrite fst_bind, wiki_query_trace.
  cbn [lift fst]. by destruct (snd _).
Qed.

Lemma current_members_trace env page_name section_name :
  fst (current_members env page_name section_name)
  = [EvRequest (Some (api_url (article_params page_name)))].
Proof.
  unfold current_members. rewrite fst_bind, wiki_query_article_trace.
  destruct (snd (wiki_query_article env page_name)); [|done].
  unfold assert. rewrite !fst_bind. cbn [lift ret fst snd app].
  by repeat case_match.
Qed.

Lemma requests_writes name chunks : requests (EvWrite name <$> chunks) = [].
Proof. by induction chunks. Qed.

Lemma download_requests env title file :
  exists l,
    requests (fst (download_congress_portrait env title file))
    = Some (api_url (article_params title)) :: l
    /\ length l <= 2.
Proof.
  unfold download_congress_portrait.
  rewrite fst_bind, wiki_query_article_trace. cbn [app requests omap list_omap].
  eexists. split; [reflexivity|]. fold (requests).
  destruct (snd (wiki_query_article env title)) as [page_text|]; [|unfold requests; cbn; repeat constructor].
  rewrite fst_bind. cbn [lift fst snd app].
  destruct (wiki_read_officeholder_image_name env page_text)
    as [image_name|]; [|unfold requests; cbn; repeat constructor].
  rewrite fst_bind, wiki_query_image_url_trace.
  destruct (snd (wiki_query_image_url env image_name)) as [image_url|];
    [|unfold requests; cbn; repeat constructor].
  rewrite fst_bind. cbn [emit fst snd app].
  rewrite fst_bind. cbn [lift fst snd app].
  destruct (image_get env image_url) as [r|]; [|unfold requests; cbn; repeat constructor].
  rewrite fst_bind. unfold raise_for_status.
  destruct (_ && _); [unfold requests; cbn; repeat constructor|].
  cbn [ret fst snd app]. unfold copyfileobj. rewrite copy_chunks_trace.
  change (list_omap ?f ?l) with (omap f l).
  change (omap _ (?a :: ?b :: ?t)) with (requests ([a; b] ++ t)).
  rewrite requests_app, requests_writes, (right_id_L [] (++)).
  change (requests [EvRequest ?a; EvRequest ?b]) with [a; b].
  cbn [length]. repeat constructor.
Qed.

Lemma member_pipeline_requests env m :
  length (requests (fst (member_pipeline env m))) <= 3.
Proof.
  rewrite member_pipeline_unfold.
  destruct (open_ok env _); cbn [fst]; [|unfold requests; cbn; lia].
  destruct (download_requests env (article_title m) (img_file_name m))
    as (l & Hl & Hlen).
  change (?e :: ?t ++ ?u) with ([e] ++ t ++ u).
  rewrite !requests_app, Hl, !length_app.
  change (requests [EvOpen ?a ?b]) with (@nil (option string)).
  change (requests [EvClose ?a]) with (@nil (option string)).
  cbn [length]. lia.
Qed.

Lemma main_body_requests env failures m :
  length (requests (fst (main_body env failures m))) <= 3.
Proof.
  rewrite main_body_trace.
  destruct (stdout_error env _); [unfold requests; cbn; lia|].
  change (?e :: ?t ++ ?u) with ([e] ++ t ++ u).
  rewrite !requests_app, (idle_requests _ (outcome_events_idle env m)).
  change (requests [EvStdout ?a]) with (@nil (option string)).
  rewrite (right_id_L [] (++)). apply member_pipeline_requests.
Qed.

Lemma main_loop_requests env failures members :
  length (requests (fst (main_loop env failures members)))
  <= 3 * length members.
Proof.
  revert failures. induction members as [|m rest IH]; intros failures;
    [unfold requests; cbn; lia|].
  rewrite main_loop_cons.
  pose proof (main_body_requests env failures m) as Hm.
  destruct (turn_error env m); cbn [fst length]; [lia|].
  rewrite requests_app, length_app.
  specialize (IH (record env failures m)). lia.
Qed.








(** The file of a member after a turn of the loop that starts. *)
Lemma main_body_content env failures m (fs : gmap string string) :
  stdout_error env (failure_name m +:+ "...") = None ->
  open_ok env (img_file_name m) = true ->
  replay fs (fst (main_body env failures m)) !! img_file_name m
  = Some (written (img_file_name m) (fst (member_pipeline env m))).
Proof.
  intros Hs Ho. rewrite main_body_trace, Hs.
  change (replay fs (?e :: ?u)) with (replay (apply_event fs e) u).
  cbn [apply_event].
  rewrite replay_app, (idle_replay _ _ (outcome_events_idle env m)).
  by apply member_pipeline_content.
Qed.

Lemma turn_error_start env m :
  turn_error env m = None ->
  stdout_error env (failure_name m +:+ "...") = None.
Proof. unfold turn_error. by destruct (stdout_error env _). Qed.

Lemma pipeline_raises_false env m :
  pipeline_raises env m = false ->
  open_ok env (img_file_name m) = true
  /\ snd (download_congress_portrait env (article_title m) (img_file_name m))
     = Ok tt.
Proof.
  unfold pipeline_raises. rewrite member_pipeline_unfold.
  destruct (open_ok env _); [|done]. cbn [snd].
  by destruct (snd _) as [[]|].
Qed.

(** A copy goes through the chunks, or stops at the first empty one. *)
Lemma copied_cases chunks :
  forallb (fun chunk => PyStr.truthy (Some chunk)) chunks = true
  /\ copied chunks = chunks
  \/ forallb (fun chunk => PyStr.truthy (Some chunk)) chunks = false
     /\ exists after, chunks = copied chunks ++ EmptyString :: after.
Proof.
  induction chunks as [|chunk rest IH]; [by left|].
  cbn [forallb copied]. destruct chunk as [|c chunk].
  - right. split; [done|]. by exists rest.
  - change (PyStr.truthy (Some (String c chunk))) with true.
    cbn [andb]. destruct IH as [[H1 H2]|[H1 [after Ha]]].
    + left. by rewrite H2.
    + right. split; [done|]. exists after. cbn [app]. by rewrite <- Ha.
Qed.

(** X1.  In a whole run, whatever the network, the file system and the
    standard output answer, the file handles are used with discipline: a
    file is opened only when no other file is open, every write and every
    close goes to the file that is open, and no file is left open when the
    run ends, with or without an exception. *)
Theorem file_handles_are_disciplined (env : Env) :
  protocol None (fst (main env)) = Some None.
Proof. apply main_protocol. Qed.

(** X2.  Running the effects of a run a second time, on the files that the
    first run has left, changes nothing: a run rewrites each of its files
    from the start and never appends to what it finds. *)
Theorem second_run_changes_nothing (env : Env) (fs : gmap string string) :
  replay (replay fs (fst (main env))) (fst (main env))
  = replay fs (fst (main env)).
Proof. apply replay_twice, main_protocol. Qed.

(** X3.  Members that share an image file name share the file, and the
    last of them decides its content: when the turn of [m] takes place
    (the standard output accepts the texts of the loop up to that turn),
    the file of [m] can be opened and no later member of the roster has
    the same file name, the file holds after the loop exactly what was
    written during the turn of [m], whatever it held before, whatever the
    earlier turns wrote and wherever the loop ends after that turn. *)
Theorem last_turn_decides_the_file (env : Env) (failures : list string)
    (before after : list member) (m : member) (fs : gmap string string) :
  loop_error env before = None ->
  stdout_error env (failure_name m +:+ "...") = None ->
  open_ok env (img_file_name m) = true ->
  (forall m', m' ∈ after -> img_file_name m' <> img_file_name m) ->
  replay fs (fst (main_loop env failures (before ++ m :: after)))
    !! img_file_name m
  = Some (written (img_file_name m) (fst (member_pipeline env m))).
Proof.
  intros Hb Hs Ho Hafter.
  rewrite main_loop_app, Hb, replay_app, main_loop_cons.
  set (f1 := failures ++ _). set (fs1 := replay fs _).
  pose proof (main_body_content env f1 m fs1 Hs Ho) as Hc.
  destruct (turn_error env m); cbn [fst]; [done|].
  rewrite replay_app.
  rewrite (replay_untouched _ None None);
    [done|apply main_loop_protocol|done|].
  destruct (opens (img_file_name m) _) eqn:Hopens; [|done].
  apply opens_opened in Hopens.
  assert (forall f l, omap opened (fst (main_loop env f l))
                      ⊆ img_file_name <$> l) as Hsub.
  { clear. intros f l. revert f.
    induction l as [|m l IH]; intros f; [done|].
    rewrite main_loop_cons, main_body_trace.
    assert (omap opened (outcome_events env m) = []) as Ho.
    { pose proof (outcome_events_not_opened env m) as H.
      induction H as [|e t He _ IHt]; [done|].
      cbn [omap list_omap]. by rewrite He. }
    assert (omap opened
              (match stdout_error env (failure_name m +:+ "...") with
               | Some _ => []
               | None =>
                   EvStdout (failure_name m +:+ "...")
                     :: fst (member_pipeline env m) ++ outcome_events env m
               end) ⊆ [img_file_name m]) as Hm.
    { destruct (stdout_error env _); [by apply list_subseteq_nil|].
      change (?x :: ?u) with ([x] ++ u).
      rewrite !omap_app, member_pipeline_opened, Ho. done. }
    destruct (turn_error env m); cbn [fst fmap list_fmap].
    - intros x Hx. apply Hm in Hx. apply list_elem_of_singleton in Hx.
      subst. left.
    - rewrite omap_app. intros x [Hx|Hx]%elem_of_app.
      + apply Hm in Hx. apply list_elem_of_singleton in Hx. subst. left.
      + right. by apply (IH (record env f m)). }
  apply Hsub in Hopens.
  apply list_elem_of_fmap in Hopens as (m' & Hm' & Hin).
  by destruct (Hafter m' Hin).
Qed.

Lemma last_turn_decides_the_file_witness :
  replay {[ "us_congress_portrait_roe_john.jpg" := "an older portrait" ]}
    (fst (main_loop Sample.env [] [Sample.john; Sample.jane; Sample.ann]))
    !! "us_congress_portrait_roe_john.jpg" = Some "JFIFpixels".
Proof.
  etrans.
  - apply (last_turn_decides_the_file Sample.env [] [] [Sample.jane; Sample.ann]
             Sample.john); [reflexivity..|].
    intros m' Hm'. apply list_elem_of_In in Hm'.
    destruct Hm' as [<-|[<-|[]]]; vm_compute; discriminate.
  - vm_compute. reflexivity.
Defined.



(** X5.  Reading a roster sends exactly one request, the one for the
    roster article.  A download sends the request for the article first
    and at most two more.  The loop sends at most three requests for each
    member. *)
Theorem each_member_costs_at_most_three_requests (env : Env) :
  (forall page_name section_name,
     requests (fst (current_members env page_name section_name))
     = [Some (api_url (article_params page_name))])
  /\ (forall title file,
        exists l,
          requests (fst (download_congress_portrait env title file))
          = Some (api_url (article_params title)) :: l
          /\ length l <= 2)
  /\ (forall failures members,
        length (requests (fst (main_loop env failures members)))
        <= 3 * length members).
Proof.
  split; [|split].
  - intros page_name section_name. by rewrite current_members_trace.
  - apply download_requests.
  - apply main_loop_requests.
Qed.

(** X6.  A turn that ends without an exception leaves the list of
    failures as it is, and its image file holds the body of an image
    response that carried no error status, as far as the copy went: all
    the chunks when none is empty and the reading ended without an error,
    and otherwise only the chunks before the first empty one, although
    the turn is reported as a success. *)
Theorem successful_turn_stores_what_was_copied (env : Env)
    (failures : list string) (m : member) (fs : gmap string string) :
  turn_error env m = None ->
  pipeline_raises env m = false ->
  snd (main_body env failures m) = Ok failures
  /\ exists url r,
       image_get env url = Ok r
       /\ ((400 <=? status_code r) && (status_code r <? 600)) = false
       /\ replay fs (fst (main_body env failures m)) !! img_file_name m
          = Some (String.concat EmptyString (copied (raw_chunks r)))
       /\ (copied (raw_chunks r) = raw_chunks r /\ raw_error r = None
           \/ exists after,
                raw_chunks r = copied (raw_chunks r) ++ EmptyString :: after).
Proof.
  intros Ht Hr. pose proof Hr as (Ho & Hd)%pipeline_raises_false.
  split.
  - rewrite main_body_result, Ht. unfold record. by rewrite Hr.
  - rewrite (main_body_content env failures m fs (turn_error_start _ _ Ht) Ho).
    rewrite member_pipeline_unfold, Ho. cbn [fst written].
    rewrite written_app. cbn [written]. rewrite str_app_nil_r.
    destruct (download_cases env (article_title m) (img_file_name m))
      as [[_ Hx]|(url & r & H1 & H2 & H3 & H4)].
    + by rewrite Hd in Hx.
    + exists url, r. rewrite H3. split; [done|]. split; [done|].
      split; [done|]. rewrite Hd in H4.
      destruct (copied_cases (raw_chunks r)) as [[Hall Hc]|[_ Hc]];
        [left|by right].
      split; [done|]. rewrite Hall in H4. by destruct (raw_error r).
Qed.

Lemma successful_turn_stores_what_was_copied_witness :
  snd (main_body Sample.env_gap [] Sample.john) = Ok []
  /\ replay ∅ (fst (main_body Sample.env_gap [] Sample.john))
       !! img_file_name Sample.john
     = Some "JFIF".
Proof.
  destruct (successful_turn_stores_what_was_copied Sample.env_gap []
              Sample.john ∅) as (H1 & url & r & Hg & _ & Hf & _);
    [vm_compute; reflexivity..|].
  split; [exact H1|]. rewrite Hf. clear Hf. revert Hg.
  destruct url as [url|]; [|vm_compute; discriminate].
  destruct (String.eqb_spec url "http://upload.example.org/John_Roe.jpg")
    as [->|Hne].
  - vm_compute. by intros [= <-].
  - intros Hg. exfalso. revert Hg. unfold Sample.env_gap, image_get.
    unfold Sample.lookup. cbn [find fst snd].
    rewrite bool_decide_eq_false_2 by congruence. discriminate.
Defined.



(** * A match never leaves its line *)

Section Lines.

Context (b : string).

Local Abbreviation X := (String Re.newline b).

Lemma strip_prefix_line p s :
  PyStr.free_of [Re.newline] p = true ->
  Re.strip_prefix p (s +:+ X) = (fun r => r +:+ X) <$> Re.strip_prefix p s.
Proof.
  revert s. induction p as [|c p IH]; intros s Hp; [done|].
  rewrite free_of_cons in Hp. apply andb_true_iff in Hp as [Hc Hp].
  destruct s as [|d s].
  - rewrite str_app_nil_l. cbn [Re.strip_prefix].
    revert Hc. char_cases.
  - rewrite str_app_cons. cbn [Re.strip_prefix].
    destruct (Ascii.eqb c d); [by apply IH|done].
Qed.

Lemma substring_app_le n s t :
  n <= String.length s ->
  String.substring 0 n (s +:+ t) = String.substring 0 n s.
Proof.
  revert n. induction s as [|c s IH]; intros n Hn.
  - cbn in Hn. assert (n = 0) as -> by lia. by destruct t.
  - rewrite str_app_cons. destruct n as [|n]; [done|].
    cbn [String.substring]. rewrite IH; [done|]. cbn in Hn. lia.
Qed.

Lemma consumed_line s s' :
  Re.consumed (s +:+ X) (s' +:+ X) = Re.consumed s s'.
Proof.
  unfold Re.consumed. rewrite !str_length_app.
  replace (String.length s + String.length X - (String.length s' + String.length X))
    with (String.length s - String.length s') by lia.
  apply substring_app_le. lia.
Qed.

Lemma lazy_dot_star_line {R : Type} (k k' : string -> option R) (f : R -> R) s :
  (forall s', k' (s' +:+ X) = f <$> k s') ->
  Re.lazy_dot_star k' (s +:+ X) = f <$> Re.lazy_dot_star k s.
Proof.
  intros H. induction s as [|c s IH].
  - rewrite str_app_nil_l. cbn [Re.lazy_dot_star].
    change (String Re.newline b) with (EmptyString +:+ X). rewrite H.
    destruct (k EmptyString); [done|]. by rewrite Ascii.eqb_refl.
  - rewrite str_app_cons. cbn [Re.lazy_dot_star].
    rewrite <- str_app_cons, H. destruct (k (String c s)); [done|].
    cbn [fmap option_fmap option_map]. by destruct (Ascii.eqb c Re.newline).
Qed.

Lemma exec_line {R : Type} (f : R -> R) r :
  line_bound r = true ->
  forall s caps (k k' : string -> Re.captures -> option R),
    (forall s' caps', k' (s' +:+ X) caps' = f <$> k s' caps') ->
    Re.exec r (s +:+ X) caps k' = f <$> Re.exec r s caps k.
Proof.
  induction r as [p| |r1 IH1 r2 IH2|i r IH|r IH]; cbn [line_bound Re.exec];
    intros Hr s caps k k' H.
  - rewrite strip_prefix_line by done.
    destruct (Re.strip_prefix p s); [apply H|done].
  - by apply lazy_dot_star_line.
  - apply andb_true_iff in Hr as [Hr1 Hr2].
    apply IH1; [done|]. intros s' caps'. by apply IH2.
  - apply IH; [done|]. intros s' caps'. by rewrite consumed_line.
  - rewrite (IH Hr s caps k k' H).
    destruct (Re.exec r s caps k); [done|apply H].
Qed.

Lemma match_at_line r n s :
  line_bound r = true ->
  Re.match_at r n (s +:+ X)
  = (fun cr => (fst cr, snd cr +:+ X)) <$> Re.match_at r n s.
Proof. intros Hr. unfold Re.match_at. by apply exec_line. Qed.

Lemma findall_from_line r n :
  line_bound r = true ->
  Re.match_at r n EmptyString = None ->
  forall s skip,
    skip <= String.length s ->
    Re.findall_from r n skip (s +:+ X)
    = Re.findall_from r n skip s ++ Re.findall_from r n 0 b.
Proof.
  intros Hr H0. induction s as [|c s IH]; intros skip Hs.
  - cbn in Hs. assert (skip = 0) as -> by lia.
    rewrite str_app_nil_l. cbn [Re.findall_from].
    change (String Re.newline b) with (EmptyString +:+ X).
    by rewrite match_at_line, H0.
  - destruct skip as [|skip].
    + rewrite str_app_cons. cbn [Re.findall_from].
      rewrite <- str_app_cons, match_at_line by done.
      destruct (Re.match_at r n (String c s)) as [[caps rest]|];
        cbn [fmap option_fmap option_map fst snd].
      * cbn [app]. f_equal. rewrite str_app_cons.
        cbn [String.length]. rewrite !str_length_app.
        replace (S (String.length s + String.length X)
                 - (String.length rest + String.length X) - 1)
          with (S (String.length s) - String.length rest - 1) by lia.
        apply IH. lia.
      * apply IH. lia.
    + rewrite str_app_cons. cbn [Re.findall_from]. apply IH.
      cbn in Hs. lia.
Qed.

End Lines.

Lemma members_of_lines a b :
  members_of_section (a +:+ LF +:+ b)
  = members_of_section a ++ members_of_section b.
Proof.
  unfold members_of_section, Re.findall.
  change (LF +:+ b) with (String Re.newline b).
  rewrite findall_from_line; [|done|done|lia]. by rewrite fmap_app.
Qed.

(** * What a match captures *)

Section LazyFirst.

Context {R : Type} (k : string -> option R).

(** A success of the star is the first one: the continuation fails
    wherever the star could have stopped before. *)
Lemma lazy_dot_star_first s x :
  Re.lazy_dot_star k s = Some x ->
  exists p s',
    s = p +:+ s' /\ k s' = Some x /\ PyStr.free_of [Re.newline] p = true
    /\ forall p1 c p2, p = p1 +:+ String c p2 -> k (String c p2 +:+ s') = None.
Proof.
  induction s as [|c s IH]; cbn [Re.lazy_dot_star].
  - destruct (k EmptyString) eqn:E; [|discriminate].
    intros [= <-]. exists EmptyString, EmptyString.
    repeat split; try done. intros [|??] ???; discriminate.
  - destruct (k (String c s)) eqn:E.
    + intros [= <-]. exists EmptyString, (String c s).
      repeat split; try done. intros [|??] ???; discriminate.
    + destruct (Ascii.eqb c Re.newline) eqn:En; [discriminate|].
      intros (p & s' & -> & Hk & Hp & Hmin)%IH.
      exists (String c p), s'. split; [reflexivity|]. split; [done|].
      split; [rewrite free_of_cons; cbn [existsb]; by rewrite En, Hp|].
      intros [|d p1] c' p2 Heq.
      * rewrite str_app_nil_l in Heq. injection Heq as <- <-.
        by rewrite str_app_cons.
      * rewrite str_app_cons in Heq. injection Heq as <- ->. by eapply Hmin.
Qed.

(** The star succeeds when the continuation does further on the line. *)
Lemma lazy_dot_star_find p s' :
  PyStr.free_of [Re.newline] p = true ->
  is_Some (k s') -> is_Some (Re.lazy_dot_star k (p +:+ s')).
Proof.
  intros Hp [y Hy]. induction p as [|c p IH].
  - rewrite str_app_nil_l. exists y. by apply lazy_dot_star_hit.
  - rewrite free_of_cons in Hp. apply andb_true_iff in Hp as [Hc Hp].
    rewrite str_app_cons. cbn [Re.lazy_dot_star].
    destruct (k (String c (p +:+ s'))); [done|].
    revert Hc. char_cases. intros _. by apply IH.
Qed.

End LazyFirst.

Lemma free_of_app chars s t :
  PyStr.free_of chars (s +:+ t)
  = PyStr.free_of chars s && PyStr.free_of chars t.
Proof. apply all_chars_app. Qed.

Lemma free_of_no_split c chars s :
  PyStr.free_of chars s = true ->
  (forall p1 p2, s <> p1 +:+ String c p2) ->
  PyStr.free_of (c :: chars) s = true.
Proof.
  induction s as [|d s IH]; [done|]. rewrite !free_of_cons.
  intros [Hd Hs]%andb_true_iff Hsplit. cbn [existsb].
  destruct (Ascii.eqb_spec d c) as [->|Hne].
  - by destruct (Hsplit EmptyString s).
  - cbn [orb]. rewrite Hd. apply IH; [done|].
    intros p1 p2 ->. by apply (Hsplit (String d p1) p2).
Qed.

Lemma none_not_some {A : Type} (o : option A) : o = None -> is_Some o -> False.
Proof. intros -> [? ?]. discriminate. Qed.

Lemma match_at_sortname s :
  Re.match_at RE_SORTNAME RE_SORTNAME_groups s
  = match Re.strip_prefix OPENING s with
    | Some s' => sn_first s'
    | None => None
    end.
Proof. reflexivity. Qed.

Lemma sn_article_closing f l rest :
  is_Some (sn_article f l ("}}" +:+ rest)).
Proof. unfold sn_article, sn_close. rewrite strip_prefix_app. by eexists. Qed.

Lemma sn_article_piped f l pre rest :
  PyStr.free_of [Re.newline] pre = true ->
  is_Some (sn_article f l ("|" +:+ pre +:+ "}}" +:+ rest)).
Proof.
  intros Hpre. unfold sn_article. rewrite strip_prefix_app.
  destruct (lazy_dot_star_find
              (fun s'' =>
                 sn_close
                   [Some f; Some l;
                    Some (Re.consumed ("|" +:+ pre +:+ "}}" +:+ rest) s'')] s'')
              pre ("}}" +:+ rest) Hpre) as [x ->]; [|by eexists].
  unfold sn_close. rewrite strip_prefix_app. by eexists.
Qed.

(** What is matched from the end of the last name on. *)
Lemma sn_article_inv f l s caps rest :
  sn_article f l s = Some (caps, rest) ->
  exists a,
    caps = [Some f; Some l; a]
    /\ s = Re.group_text a +:+ "}}" +:+ rest
    /\ (a = None
        \/ exists t, a = Some (String "|"%char t)
             /\ PyStr.free_of [Re.newline] t = true
             /\ forall u v, t <> u +:+ "}}" +:+ v).
Proof.
  unfold sn_article.
  destruct (Re.strip_prefix "|" s) as [s5|] eqn:E5.
  - apply strip_prefix_inv in E5 as ->.
    destruct (Re.lazy_dot_star _ s5) as [x|] eqn:E6.
    + intros [= ->].
      apply lazy_dot_star_first in E6 as (t & s6 & -> & H6 & Ht & Hmin).
      unfold sn_close in H6, Hmin.
      destruct (Re.strip_prefix "}}" s6) as [s7|] eqn:E7; [|done].
      apply strip_prefix_inv in E7 as ->.
      rewrite <- (str_app_assoc "|" t), consumed_app in H6.
      injection H6 as <- <-.
      exists (Some ("|" +:+ t)). cbn [Re.group_text].
      split; [done|]. split; [by rewrite !str_app_assoc|].
      right. exists t. split; [done|]. split; [done|].
      intros u v ->.
      specialize (Hmin u "}"%char (String "}" v)).
      rewrite !str_app_assoc in Hmin. specialize (Hmin eq_refl).
      change (String "}" (String "}" v) +:+ ?x) with ("}}" +:+ (v +:+ x))
        in Hmin.
      by rewrite strip_prefix_app in Hmin.
    + unfold sn_close. change ("|" +:+ s5) with (String "|"%char s5).
      by rewrite strip_prefix_head_ne.
  - unfold sn_close.
    destruct (Re.strip_prefix "}}" s) as [s7|] eqn:E7; [|done].
    apply strip_prefix_inv in E7 as ->. intros [= <- <-].
    exists None. by repeat split; try left.
Qed.

Lemma sn_article_again f l f' l' s :
  is_Some (sn_article f l s) -> is_Some (sn_article f' l' s).
Proof.
  intros [[caps rest] (a & _ & -> & [->|(t & -> & Ht & _)])%sn_article_inv].
  - apply sn_article_closing.
  - cbn [Re.group_text]. rewrite str_app_cons.
    change (String "|" (t +:+ "}}" +:+ rest)) with ("|" +:+ t +:+ "}}" +:+ rest).
    by apply sn_article_piped.
Qed.

Lemma sn_last_find f pre s :
  PyStr.free_of [Re.newline] pre = true ->
  (forall f' l', is_Some (sn_article f' l' s)) ->
  is_Some (sn_last f ("|" +:+ pre +:+ s)).
Proof.
  intros Hpre Hs. unfold sn_last. rewrite strip_prefix_app.
  apply lazy_dot_star_find; [done|apply Hs].
Qed.

(** Both names are free of [|] and of line breaks, the last name and the
    article name hold no [}}]. *)
Lemma match_at_sharp s caps rest :
  Re.match_at RE_SORTNAME RE_SORTNAME_groups s = Some (caps, rest) ->
  exists f l a,
    caps = [Some f; Some l; a]
    /\ PyStr.free_of ["|"; Re.newline]%char f = true
    /\ PyStr.free_of ["|"; Re.newline]%char l = true
    /\ (forall u v, l <> u +:+ "}}" +:+ v)
    /\ (a = None
        \/ exists t, a = Some (String "|"%char t)
             /\ PyStr.free_of [Re.newline] t = true
             /\ forall u v, t <> u +:+ "}}" +:+ v).
Proof.
  rewrite match_at_sortname.
  destruct (Re.strip_prefix OPENING s) as [s1|] eqn:E1; [|done].
  unfold sn_first.
  intros (f & s2 & -> & H2 & Hf & Hmin1)%lazy_dot_star_first.
  rewrite consumed_app in H2. unfold sn_last in H2.
  destruct (Re.strip_prefix "|" s2) as [s3|] eqn:E3; [|done].
  apply strip_prefix_inv in E3 as ->.
  apply lazy_dot_star_first in H2 as (l & s4 & -> & H4 & Hl & Hmin2).
  rewrite consumed_app in H4.
  assert (forall f' l', is_Some (sn_article f' l' s4)) as Hs4.
  { intros f' l'. apply (sn_article_again f l). by eexists. }
  apply sn_article_inv in H4 as (a & -> & -> & Ha).
  assert (PyStr.free_of [Re.newline] (Re.group_text a) = true) as Hna.
  { destruct Ha as [->|(t & -> & Ht & _)]; [done|].
    cbn [Re.group_text]. by rewrite free_of_cons, Ht. }
  exists f, l, a. split; [done|].
  split; [|split; [|split; [|done]]].
  - apply free_of_no_split; [done|]. intros p1 p2 ->.
    apply (none_not_some _ (Hmin1 p1 "|"%char p2 eq_refl)).
    rewrite free_of_app, free_of_cons in Hf.
    apply andb_true_iff in Hf as [_ [_ Hp2]%andb_true_iff].
    set (T := Re.group_text a +:+ "}}" +:+ rest) in *.
    assert (String "|" p2 +:+ "|" +:+ l +:+ T
            = "|" +:+ (p2 +:+ "|" +:+ l) +:+ T) as ->.
    { by rewrite ?str_app_cons, ?str_app_nil_l, !str_app_assoc. }
    apply sn_last_find; [|exact Hs4].
    by rewrite !free_of_app, Hp2, Hl.
  - apply free_of_no_split; [done|]. intros p1 p2 ->.
    apply (none_not_some _ (Hmin2 p1 "|"%char p2 eq_refl)).
    rewrite free_of_app, free_of_cons in Hl.
    apply andb_true_iff in Hl as [_ [_ Hp2]%andb_true_iff].
    assert (String "|" p2 +:+ Re.group_text a +:+ "}}" +:+ rest
            = "|" +:+ (p2 +:+ Re.group_text a) +:+ "}}" +:+ rest) as ->.
    { by rewrite ?str_app_cons, ?str_app_nil_l, !str_app_assoc. }
    apply sn_article_piped. by rewrite free_of_app, Hp2, Hna.
  - intros u v ->.
    specialize (Hmin2 u "}"%char (String "}" v)).
    rewrite !str_app_assoc in Hmin2.
    apply (none_not_some _ (Hmin2 eq_refl)).
    change (String "}" (String "}" v) +:+ ?x) with ("}}" +:+ (v +:+ x)).
    apply sn_article_closing.
Qed.

Lemma findall_from_sharp skip s g :
  g ∈ Re.findall_from RE_SORTNAME RE_SORTNAME_groups skip s ->
  exists f l a,
    g = [f; l; a]
    /\ PyStr.free_of ["|"; Re.newline]%char f = true
    /\ PyStr.free_of ["|"; Re.newline]%char l = true
    /\ (forall u v, l <> u +:+ "}}" +:+ v)
    /\ (a = EmptyString
        \/ exists t, a = String "|"%char t
             /\ PyStr.free_of [Re.newline] t = true
             /\ forall u v, t <> u +:+ "}}" +:+ v).
Proof.
  revert skip. induction s as [|c s IH]; intros [|skip]; cbn [Re.findall_from].
  - destruct (Re.match_at _ _ _) as [[caps rest]|] eqn:E; [|by intros ?%elem_of_nil].
    discriminate E.
  - by intros ?%elem_of_nil.
  - destruct (Re.match_at _ _ _) as [[caps rest]|] eqn:E; [|by apply IH].
    intros [->|Hg]%elem_of_cons; [|by eapply IH].
    apply match_at_sharp in E as (f & l & a & -> & Hf & Hl & Hl' & Ha).
    exists f, l, (Re.group_text a). split; [done|]. split; [done|].
    split; [done|]. split; [done|].
    destruct Ha as [->|(t & -> & Ht)]; [by left|right; by exists t].
  - apply IH.
Qed.

Lemma findall_from_no_opening s :
  occurs OPENING s = false ->
  Re.findall_from RE_SORTNAME RE_SORTNAME_groups 0 s = [].
Proof.
  induction s as [|c s IH]; [done|]. cbn [occurs].
  intros [Hhead Hs]%orb_false_iff. apply bool_decide_eq_false in Hhead.
  cbn [Re.findall_from]. rewrite match_at_dead; [by apply IH|].
  unfold dead_start.
  destruct (Re.strip_prefix OPENING (String c s)) as [s'|] eqn:E; [|done].
  destruct Hhead. by eexists.
Qed.

(** X8.  A roster is collected line by line: the members of two texts
    joined by a line break are the members of the first followed by the
    members of the second.  No citation extends over a line break. *)
Theorem roster_is_collected_line_by_line (a b : string) :
  members_of_section (a +:+ LF +:+ b)
  = members_of_section a ++ members_of_section b.
Proof. apply members_of_lines. Qed.

(** X9.  In every triple of every roster the first and the last name hold
    no [|] and no line break, and the last name holds no [}}]; the third
    component is the empty string, or a [|] followed by a text without
    line break and without [}}]. *)
Theorem names_hold_no_separator (text : string) (f l : string)
    (x : option string) :
  (f, l, x) ∈ members_of_section text ->
  PyStr.free_of ["|"; Re.newline]%char f = true
  /\ PyStr.free_of ["|"; Re.newline]%char l = true
  /\ (forall u v, l <> u +:+ "}}" +:+ v)
  /\ (x = Some EmptyString
      \/ exists t, x = Some (String "|"%char t)
           /\ PyStr.free_of [Re.newline] t = true
           /\ forall u v, t <> u +:+ "}}" +:+ v).
Proof.
  unfold members_of_section. intros (g & Hg & Hin)%list_elem_of_fmap.
  apply findall_from_sharp in Hin as (f' & l' & a & -> & Hf & Hl & Hl' & Ha).
  unfold as_member in Hg. cbn in Hg. injection Hg as -> -> ->.
  split; [done|]. split; [done|]. split; [done|].
  destruct Ha as [->|(t & -> & Ht)]; [by left|right; by exists t].
Qed.

Lemma names_hold_no_separator_witness :
  PyStr.free_of ["|"; Re.newline]%char "Jane}} {{flag" = true
  /\ PyStr.free_of ["|"; Re.newline]%char "US" = true.
Proof.
  destruct (names_hold_no_separator "{{sortname|Jane}} {{flag|US}}"
              "Jane}} {{flag" "US" (Some EmptyString)) as (H1 & H2 & _).
  - vm_compute. left.
  - by split.
Defined.

(** X10.  A text in which [{{sortname|] does not occur, in these lower-case
    letters, yields no member: a citation under another spelling of the
    template name, as [Sortname] or [sort name], is not seen. *)
Theorem no_opening_no_member (text : string) :
  occurs OPENING text = false ->
  members_of_section text = [].
Proof.
  intros H. unfold members_of_section, Re.findall.
  by rewrite findall_from_no_opening.
Qed.

Lemma no_opening_no_member_witness :
  members_of_section "{{Sortname|Jane|Doe}} and {{sort name|John|Roe}}" = [].
Proof. apply no_opening_no_member. vm_compute. reflexivity. Defined.

(** * Facts on [strip], continued *)

Lemma lstrip_by_pad p w s :
  PyStr.all_chars p w = true ->
  PyStr.lstrip_by p (w +:+ s) = PyStr.lstrip_by p s.
Proof.
  induction w as [|c w IH]; [done|]. cbn [PyStr.all_chars].
  intros [Hc Hw]%andb_true_iff. rewrite str_app_cons.
  cbn [PyStr.lstrip_by]. rewrite Hc. auto.
Qed.

Lemma rstrip_by_blank p w :
  PyStr.all_chars p w = true -> PyStr.rstrip_by p w = EmptyString.
Proof.
  induction w as [|c w IH]; [done|]. cbn [PyStr.all_chars].
  intros [Hc Hw]%andb_true_iff. cbn [PyStr.rstrip_by]. by rewrite IH, Hc.
Qed.

Lemma rstrip_by_pad p s w :
  PyStr.all_chars p w = true ->
  PyStr.rstrip_by p (s +:+ w) = PyStr.rstrip_by p s.
Proof.
  intros Hw. induction s as [|c s IH].
  - rewrite str_app_nil_l. by apply rstrip_by_blank.
  - rewrite str_app_cons. cbn [PyStr.rstrip_by]. by rewrite IH.
Qed.

Lemma lstrip_by_length p s :
  String.length (PyStr.lstrip_by p s) <= String.length s.
Proof.
  induction s as [|c s IH]; [done|]. cbn [PyStr.lstrip_by].
  destruct (p c); cbn [String.length]; lia.
Qed.

Lemma lstrip_by_fixed_app p s w :
  PyStr.lstrip_by p s = s -> s <> EmptyString ->
  PyStr.lstrip_by p (s +:+ w) = s +:+ w.
Proof.
  destruct s as [|c s]; [done|]. intros H _.
  cbn [PyStr.lstrip_by] in H. rewrite str_app_cons. cbn [PyStr.lstrip_by].
  destruct (p c); [|done].
  pose proof (lstrip_by_length p s) as Hlen. rewrite H in Hlen.
  cbn [String.length] in Hlen. lia.
Qed.

(** White space around a text that has none at its ends is what [strip]
    removes. *)
Lemma strip_pad w1 s w2 :
  PyStr.all_chars PyStr.isspace w1 = true ->
  PyStr.all_chars PyStr.isspace w2 = true ->
  PyStr.lstrip_by PyStr.isspace s = s ->
  PyStr.rstrip_by PyStr.isspace s = s ->
  PyStr.strip (w1 +:+ s +:+ w2) = s.
Proof.
  intros H1 H2 Hl Hr. unfold PyStr.strip. rewrite lstrip_by_pad by done.
  destruct s as [|c s].
  - rewrite str_app_nil_l.
    assert (PyStr.lstrip_by PyStr.isspace w2 = EmptyString) as ->; [|done].
    rewrite <- (str_app_nil_r w2). by rewrite lstrip_by_pad.
  - rewrite lstrip_by_fixed_app by done. by rewrite rstrip_by_pad.
Qed.

(** X11.  The test on the name of an infobox ignores the white space
    around the name and the case of its letters: a template whose name is
    [n], without white space at its ends, between two runs of white space
    counts as an infobox exactly when the lower-cased [n] is one of the
    five names. *)
Theorem infobox_is_recognised_whatever_case_and_padding
    (w1 n w2 : string) (params : list Wikicode.parameter) :
  PyStr.all_chars PyStr.isspace w1 = true ->
  PyStr.all_chars PyStr.isspace w2 = true ->
  PyStr.lstrip_by PyStr.isspace n = n ->
  PyStr.rstrip_by PyStr.isspace n = n ->
  is_infobox (Wikicode.MkTemplate (w1 +:+ n +:+ w2) params)
  = PyStr.mem (PyStr.lower n) INFOBOX_NAMES.
Proof.
  intros H1 H2 Hl Hr. unfold is_infobox. cbn [Wikicode.name].
  by rewrite strip_pad.
Qed.

Lemma infobox_is_recognised_whatever_case_and_padding_witness :
  is_infobox
    (Wikicode.MkTemplate ("  " +:+ "INFOBOX Politician (General)" +:+ LF) [])
  = true.
Proof.
  rewrite infobox_is_recognised_whatever_case_and_padding;
    vm_compute; reflexivity.
Defined.

(** * Facts on [sorted] *)

Lemma ltb_leb x y : String.ltb x y = true -> String.leb x y = true.
Proof. unfold String.ltb, String.leb. by destruct (String.compare x y). Qed.

Lemma not_ltb_leb x y : String.ltb x y = false -> String.leb y x = true.
Proof.
  unfold String.ltb, String.leb. rewrite (String.compare_antisym x y).
  by destruct (String.compare y x).
Qed.

Lemma insert_sorted_perm x l : PyStr.insert_sorted x l ≡ₚ x :: l.
Proof.
  induction l as [|y l IH]; [done|]. cbn [PyStr.insert_sorted].
  destruct (String.ltb x y); [done|]. by rewrite IH, Permutation_swap.
Qed.

Lemma insert_sorted_sorted x l :
  Sorted (fun a b => String.leb a b = true) l ->
  Sorted (fun a b => String.leb a b = true) (PyStr.insert_sorted x l).
Proof.
  induction 1 as [|y l Hl IH Hy]; cbn [PyStr.insert_sorted].
  - by repeat constructor.
  - destruct (String.ltb x y) eqn:E.
    + constructor; [by constructor|]. constructor. by apply ltb_leb.
    + constructor; [done|].
      destruct l as [|z l]; cbn [PyStr.insert_sorted] in *.
      * constructor. by apply not_ltb_leb.
      * destruct (String.ltb x z); constructor;
          [by apply not_ltb_leb|by inversion Hy].
Qed.

Lemma sorted_perm l : PyStr.sorted l ≡ₚ l.
Proof.
  induction l as [|x l IH]; [done|]. cbn [PyStr.sorted foldr].
  fold (PyStr.sorted l). by rewrite insert_sorted_perm, IH.
Qed.

Lemma sorted_sorted l :
  Sorted (fun a b => String.leb a b = true) (PyStr.sorted l).
Proof.
  induction l as [|x l IH]; [constructor|]. cbn [PyStr.sorted foldr].
  by apply insert_sorted_sorted.
Qed.

(** X15.  In a run that reads both rosters and ends without an
    exception, the last thing printed is the report of the failures: the
    line [failures:] and the names of the members whose [try] statement
    raised, one per line, each as often as it failed, in the ascending
    order of their code points, and the line break that ends the last
    line. *)
Theorem failure_report_is_sorted (env : Env) (t1 t2 : list event)
    (senators representatives : list member) :
  current_members env SENATE_PAGE_NAME SENATE_SECTION_NAME = (t1, Ok senators) ->
  current_members env HOUSE_PAGE_NAME HOUSE_SECTION_NAME
  = (t2, Ok representatives) ->
  snd (main env) = Ok tt ->
  exists t names,
    fst (main env)
    = t ++ [EvStdout ("failures:" +:+ LF +:+ PyStr.join LF names);
            EvStdout LF]
    /\ Sorted (fun a b => String.leb a b = true) names
    /\ names ≡ₚ failure_name
                 <$> List.filter (pipeline_raises env)
                       (senators ++ representatives).
Proof.
  intros H1 H2. rewrite (main_unfold env t1 senators t2 representatives H1 H2).
  cbn [fst snd]. rewrite run_of_rosters_unfold.
  destruct (stdout_error env (loading_text _ _)); [done|].
  destruct (stdout_error env LF); [done|].
  destruct (loop_error env _); [done|].
  destruct (stdout_error env (report_text _)); [done|]. intros _.
  eexists. eexists. split; [|split].
  - cbn [fst]. rewrite !(assoc_L (++)). reflexivity.
  - apply sorted_sorted.
  - apply sorted_perm.
Qed.

Lemma failure_report_is_sorted_witness :
  exists t names,
    fst (main Sample.env)
    = t ++ [EvStdout ("failures:" +:+ LF +:+ PyStr.join LF names);
            EvStdout LF]
    /\ Sorted (fun a b => String.leb a b = true) names
    /\ names ≡ₚ failure_name
                 <$> List.filter (pipeline_raises Sample.env)
                       ([Sample.jane; Sample.john] ++ [Sample.ann]).
Proof.
  apply (failure_report_is_sorted Sample.env
           [EvRequest (Some (api_url (article_params SENATE_PAGE_NAME)))]
           [EvRequest (Some (api_url (article_params HOUSE_PAGE_NAME)))]
           [Sample.jane; Sample.john] [Sample.ann]);
    vm_compute; reflexivity.
Defined.

Lemma str_app_inv_l p a b : p +:+ a = p +:+ b -> a = b.
Proof.
  induction p as [|c p IH]; [done|]. rewrite !str_app_cons.
  intros H. injection H as H. by apply IH.
Qed.

Lemma article_url_unfold title :
  api_url (article_params title)
  = "http://en.wikipedia.org/w/api.php?format=xml&action=query&prop=revisions&rvprop=timestamp|user|comment|content&titles=API|"
      +:+ Urllib.quote title.
Proof. reflexivity. Qed.

Lemma replay_neutral fs t : forallb neutral t = true -> replay fs t = fs.
Proof.
  revert fs. induction t as [|e t IH]; intros fs; [done|]. cbn [forallb].
  intros [He Ht]%andb_true_iff.
  change (replay fs (e :: t)) with (replay (apply_event fs e) t).
  rewrite IH by done. by destruct e.
Qed.

(** X12.  When no mapping node of the answer carries the query title in
    its [from] and the query title holds no double quote, the resolver
    looks for the page node under the query title itself: it fails on its
    assertion unless exactly one page node carries it, and when that page
    holds the one [ii] node of the answer, it returns the [url] attribute
    of that node. *)
Theorem page_is_looked_up_under_the_query_title (env : Env)
    (query_title : string) (tree : Xml.element) :
  filter (fun n => Xml.get n "from" = Some query_title)
    (Xml.xpath_child "normalized" "n" tree) = [] ->
  PyStr.free_of [dquote] query_title = true ->
  (length (Xml.xpath_attr "page" "title" query_title tree) <> 1 ->
   image_url_of_response env query_title tree = Raise AssertionError)
  /\ (forall page i,
        Xml.xpath_attr "page" "title" query_title tree = [page] ->
        Xml.xpath_below "ii" page = [i] ->
        length (Xml.xpath_all "ii" tree) = 1 ->
        image_url_of_response env query_title tree = Ok (Xml.get i "url")).
Proof.
  intros Hn Hq.
  assert (response_title_of query_title
            (Xml.xpath_child "normalized" "n" tree) = Some query_title) as Hr.
  { by rewrite response_title_of_last, Hn. }
  split; [by apply image_url_pages|].
  intros page i Hp Hi Hone. eapply image_url_found; [done..|].
  apply (only_ii_is_below tree page); [|done..].
  eapply (xpath_attr_elem_of "page" "title" query_title). rewrite Hp. by left.
Qed.

Lemma page_is_looked_up_under_the_query_title_witness :
  image_url_of_response Sample.env "File:John Roe.jpg"
    (Sample.image_answer "File:John Roe.jpg"
       "http://upload.example.org/John_Roe.jpg")
  = Ok (Some "http://upload.example.org/John_Roe.jpg").
Proof.
  destruct (page_is_looked_up_under_the_query_title Sample.env
              "File:John Roe.jpg"
              (Sample.image_answer "File:John Roe.jpg"
                 "http://upload.example.org/John_Roe.jpg"))
    as (_ & H); [vm_compute; reflexivity..|].
  apply (H (Sample.page "File:John Roe.jpg"
              [Sample.imageinfo "http://upload.example.org/John_Roe.jpg"])
           (Xml.Element "ii"
              [("url", "http://upload.example.org/John_Roe.jpg")] None []));
    vm_compute; reflexivity.
Defined.

(** X14.  A roster that [current_members] returns is what [RE_SORTNAME]
    finds in one section: the request for the roster article was answered,
    the answer held a [rev] node, and the text of the last of them had
    exactly one section under the section name. *)
Theorem roster_comes_from_the_one_section (env : Env)
    (page_name section_name : string) (members : list member) :
  snd (current_members env page_name section_name) = Ok members ->
  exists tree revs rev section,
    api_get env (api_url (article_params page_name)) = Ok tree
    /\ Xml.xpath_all "rev" tree = revs ++ [rev]
    /\ get_sections env (Xml.text rev) section_name = [section]
    /\ members = members_of_section section.
Proof.
  unfold current_members. rewrite snd_bind.
  destruct (snd (wiki_query_article env page_name)) as [text|e] eqn:Ha;
    [|done].
  unfold assert. rewrite !snd_bind. cbn [lift snd ret].
  destruct (check (length (get_sections env text section_name) =? 1))
    as [[]|] eqn:Hc; [|done].
  apply check_length_one in Hc as [section Hs]. rewrite Hs. cbn [first_item].
  intros [= <-].
  destruct (api_get env (api_url (article_params page_name))) as [tree|e]
    eqn:Hg.
  - rewrite (wiki_query_article_answer env page_name tree Hg) in Ha.
    unfold article_of_response, last_item in Ha.
    destruct (last (Xml.xpath_all "rev" tree)) as [rev|] eqn:Hl; [|done].
    apply last_Some in Hl as [revs Hl]. cbn in Ha. injection Ha as <-.
    by exists tree, revs, rev, section.
  - unfold wiki_query_article, wiki_query in Ha. cbn [bind emit lift] in Ha.
    rewrite Hg in Ha. done.
Qed.

Lemma roster_comes_from_the_one_section_witness :
  exists tree revs rev section,
    api_get Sample.env (api_url (article_params SENATE_PAGE_NAME)) = Ok tree
    /\ Xml.xpath_all "rev" tree = revs ++ [rev]
    /\ get_sections Sample.env (Xml.text rev) SENATE_SECTION_NAME = [section]
    /\ [Sample.jane; Sample.john] = members_of_section section.
Proof.
  apply (roster_comes_from_the_one_section Sample.env SENATE_PAGE_NAME
           SENATE_SECTION_NAME [Sample.jane; Sample.john]).
  vm_compute. reflexivity.
Defined.

(** X16.  The URL that the reader requests is a fixed text followed by
    the quoted title, and whatever the title, its quoted form holds none
    of [&], [=], [|], [#], [?], no space and no line break. *)
Theorem quoted_title_holds_no_delimiter (title : string) :
  api_url (article_params title)
  = "http://en.wikipedia.org/w/api.php?format=xml&action=query&prop=revisions&rvprop=timestamp|user|comment|content&titles=API|"
      +:+ Urllib.quote title
  /\ PyStr.free_of QUERY_DELIMITERS (Urllib.quote title) = true.
Proof.
  split; [reflexivity|]. unfold PyStr.free_of.
  apply (all_chars_impl url_char); [|apply quote_url_chars].
  apply url_char_plain.
Qed.

(** X17.  The reader requests different URLs for different titles: the
    quoting of the title loses nothing. *)
Theorem distinct_titles_distinct_requests (title1 title2 : string) :
  title1 <> title2 ->
  api_url (article_params title1) <> api_url (article_params title2).
Proof.
  intros Hne H. apply Hne, quote_inj.
  rewrite !article_url_unfold in H. by apply str_app_inv_l in H.
Qed.

Lemma distinct_titles_distinct_requests_witness :
  api_url (article_params "John Roe")
  <> api_url (article_params "John Roe (politician)").
Proof.
  apply (distinct_titles_distinct_requests "John Roe" "John Roe (politician)").
  vm_compute. discriminate.
Defined.

(** X18.  A run in which a roster cannot be read ends with the exception
    of that reading, and has done nothing but ask for the roster of the
    Senate, or for both rosters: it has opened and written no file, so
    that every file is as it was, and it has printed nothing on standard
    output. *)
Theorem unreadable_roster_touches_no_file (env : Env)
    (fs : gmap string string) :
  raises (snd (current_members env SENATE_PAGE_NAME SENATE_SECTION_NAME)) = true
  \/ raises (snd (current_members env HOUSE_PAGE_NAME HOUSE_SECTION_NAME))
     = true ->
  raises (snd (main env)) = true
  /\ (fst (main env)
      = [EvRequest (Some (api_url (article_params SENATE_PAGE_NAME)))]
      \/ fst (main env)
         = [EvRequest (Some (api_url (article_params SENATE_PAGE_NAME)));
            EvRequest (Some (api_url (article_params HOUSE_PAGE_NAME)))])
  /\ replay fs (fst (main env)) = fs
  /\ stdout_of (fst (main env)) = EmptyString.
Proof.
  intros Hr.
  assert (raises (snd (main env)) = true
          /\ (fst (main env)
              = [EvRequest (Some (api_url (article_params SENATE_PAGE_NAME)))]
              \/ fst (main env)
                 = [EvRequest (Some (api_url (article_params SENATE_PAGE_NAME)));
                    EvRequest
                      (Some (api_url (article_params HOUSE_PAGE_NAME)))]))
    as [H1 H].
  { pose proof (current_members_trace env SENATE_PAGE_NAME SENATE_SECTION_NAME)
      as Hs.
    pose proof (current_members_trace env HOUSE_PAGE_NAME HOUSE_SECTION_NAME)
      as Hh.
    destruct (main_raises_with_the_rosters env) as [R1 R2].
    destruct (current_members env SENATE_PAGE_NAME SENATE_SECTION_NAME)
      as [t1 [senators|e1]] eqn:E1; cbn [fst] in Hs; subst t1.
    - destruct (current_members env HOUSE_PAGE_NAME HOUSE_SECTION_NAME)
        as [t2 [representatives|e2]] eqn:E2; cbn [fst] in Hh; subst t2.
      + by destruct Hr.
      + rewrite (R2 _ senators _ e2 eq_refl eq_refl). split; [done|by right].
    - rewrite (R1 _ e1 eq_refl). split; [done|by left]. }
  split; [done|]. split; [done|]. by destruct H as [-> | ->].
Qed.

Lemma unreadable_roster_touches_no_file_witness :
  raises (snd (main Sample.env_offline)) = true
  /\ replay {[ "us_congress_portrait_doe_jane.jpg" := "an older portrait" ]}
       (fst (main Sample.env_offline))
     = {[ "us_congress_portrait_doe_jane.jpg" := "an older portrait" ]}
  /\ stdout_of (fst (main Sample.env_offline)) = EmptyString.
Proof.
  destruct (unreadable_roster_touches_no_file Sample.env_offline
              {[ "us_congress_portrait_doe_jane.jpg" := "an older portrait" ]})
    as (H1 & _ & H2 & H3); [left; vm_compute; reflexivity|].
  by repeat split.
Defined.






